(** * ClassPoll: the client-side cache, its optimistic mutations, the access
    filter and the notification feed of [src/App.tsx].

    The React component [App] keeps its data in [useState] cells and changes
    them through setters ([setPolls (prev => ...)]).  Here the cells are the
    fields of one record [AppState], a setter is a function on that record,
    and an [async] action is a function of the state, of its arguments and of
    what the remote store answers; it returns the new state together with the
    list of remote calls it issued.

    - A JavaScript [Date] is its number of milliseconds since the epoch ([Z]).
    - An optional field ([targetClass?: string]) is an [option]; [null] and
      [undefined] are both [None].
    - The vote ledger [userVotes : Record<string, string>] is a
      [gmap string string] (own string-keyed properties).
    - [generateId ()] is random: the identifier it returns is an argument of
      the action that calls it. *)

From Stdlib Require Import ZArith Lia Ascii String Sorted.
From stdpp Require Import base tactics option list gmap fin_maps strings pretty.

Open Scope string_scope.
Open Scope list_scope.
Open Scope Z_scope.

(** ** Host functions

    [String.prototype.toLowerCase] and [Date.prototype.toLocaleDateString]
    belong to the JavaScript runtime (the second depends on the locale of the
    browser), and so does the time zone, which the local getters and setters
    of [Date] go through: [localTime t] is LocalTime(t) of ECMAScript, the
    wall-clock reading of the instant [t] counted in milliseconds like a time
    value, and [utcTime l] is UTC(l), the instant that a wall-clock reading
    [l] denotes.  The development is parametric in them. *)
Class Host := {
  toLowerCase : string → string;
  toLocaleDateString : Z → string;
  localTime : Z → Z;
  utcTime : Z → Z
}.

(** ** Data model ([./types], as used by [App.tsx]) *)

Inductive UserRole := ADMIN | RESPONSABLE | ELEVE.

#[global] Instance UserRole_eq_dec : EqDecision UserRole.
Proof. solve_decision. Defined.

Inductive ViewState :=
  DASHBOARD | INFOS | DS | POLLS | RESOURCES | USERS | SETTINGS.

#[global] Instance ViewState_eq_dec : EqDecision ViewState.
Proof. solve_decision. Defined.

Record User := mkUser {
  user_id : string;
  user_name : string;
  user_email : string;
  user_password : string;
  user_role : UserRole;
  user_classGroup : option string
}.

#[global] Instance User_eq_dec : EqDecision User.
Proof. solve_decision. Defined.

Record Announcement := mkAnnouncement {
  ann_id : string;
  ann_title : string;
  ann_subject : string;
  ann_meetLink : option string;
  ann_date : Z;
  ann_isUrgent : bool;
  ann_targetClass : option string;
  ann_authorId : string;
  ann_authorName : string
}.

Record Exam := mkExam {
  exam_id : string;
  exam_subject : string;
  exam_date : Z;
  exam_startTime : string;
  exam_durationMinutes : Z;
  exam_room : string;
  exam_notes : option string;
  exam_targetClass : option string;
  exam_createdById : string
}.

Record PollOption := mkPollOption {
  opt_id : string;
  opt_text : string;
  opt_votes : Z
}.

Record Poll := mkPoll {
  poll_id : string;
  poll_title : string;
  poll_options : list PollOption;
  poll_isAnonymous : bool;
  poll_createdAt : Z;
  poll_expiresAt : Z;
  poll_targetClass : option string;
  poll_createdById : string;
  poll_userVotes : gmap string string
}.

Record Resource := mkResource {
  res_id : string;
  res_title : string;
  res_type : string;
  res_content : string;
  res_subject : string;
  res_description : option string;
  res_targetClass : option string;
  res_createdAt : Z;
  res_createdById : string
}.

Inductive NotificationType := alert | info | success.

#[global] Instance NotificationType_eq_dec : EqDecision NotificationType.
Proof. solve_decision. Defined.

Record AppNotification := mkNotification {
  notif_id : string;
  notif_type : NotificationType;
  notif_title : string;
  notif_message : string;
  notif_linkTo : ViewState;
  notif_timestamp : Z
}.

(** The [useState] cells of [App] that the data actions read or write, and
    the [classpoll_session] entry of [localStorage]. *)
Record AppState := mkState {
  currentUser : option User;
  currentView : ViewState;
  viewHistory : list ViewState;
  users : list User;
  announcements : list Announcement;
  exams : list Exam;
  polls : list Poll;
  resources : list Resource;
  isLoading : bool;
  dbError : option string;
  session : option User
}.

(** [DEFAULT_ADMIN].  The display name is kept in ASCII. *)
Definition DEFAULT_ADMIN : User :=
  mkUser "admin-init" "Administrateur Principal" "faye@eco.com" "passer25"
         ADMIN None.

(** The state of the first render. *)
Definition initialState : AppState :=
  mkState None DASHBOARD [] [] [] [] [] [] true None None.

(** *** Setters: [setX (prev => f prev)] *)

Definition setCurrentUser (u : option User) (st : AppState) : AppState :=
  mkState u (currentView st) (viewHistory st) (users st) (announcements st)
          (exams st) (polls st) (resources st) (isLoading st) (dbError st)
          (session st).

Definition setCurrentView (v : ViewState) (st : AppState) : AppState :=
  mkState (currentUser st) v (viewHistory st) (users st) (announcements st)
          (exams st) (polls st) (resources st) (isLoading st) (dbError st)
          (session st).

Definition setViewHistory (h : list ViewState) (st : AppState) : AppState :=
  mkState (currentUser st) (currentView st) h (users st) (announcements st)
          (exams st) (polls st) (resources st) (isLoading st) (dbError st)
          (session st).

Definition setUsers (us : list User) (st : AppState) : AppState :=
  mkState (currentUser st) (currentView st) (viewHistory st) us
          (announcements st) (exams st) (polls st) (resources st)
          (isLoading st) (dbError st) (session st).

Definition setAnnouncements (f : list Announcement → list Announcement)
    (st : AppState) : AppState :=
  mkState (currentUser st) (currentView st) (viewHistory st) (users st)
          (f (announcements st)) (exams st) (polls st) (resources st)
          (isLoading st) (dbError st) (session st).

Definition setExams (f : list Exam → list Exam) (st : AppState) : AppState :=
  mkState (currentUser st) (currentView st) (viewHistory st) (users st)
          (announcements st) (f (exams st)) (polls st) (resources st)
          (isLoading st) (dbError st) (session st).

Definition setPolls (f : list Poll → list Poll) (st : AppState) : AppState :=
  mkState (currentUser st) (currentView st) (viewHistory st) (users st)
          (announcements st) (exams st) (f (polls st)) (resources st)
          (isLoading st) (dbError st) (session st).

Definition setResources (f : list Resource → list Resource)
    (st : AppState) : AppState :=
  mkState (currentUser st) (currentView st) (viewHistory st) (users st)
          (announcements st) (exams st) (polls st) (f (resources st))
          (isLoading st) (dbError st) (session st).

Definition setIsLoading (b : bool) (st : AppState) : AppState :=
  mkState (currentUser st) (currentView st) (viewHistory st) (users st)
          (announcements st) (exams st) (polls st) (resources st)
          b (dbError st) (session st).

Definition setDbError (e : option string) (st : AppState) : AppState :=
  mkState (currentUser st) (currentView st) (viewHistory st) (users st)
          (announcements st) (exams st) (polls st) (resources st)
          (isLoading st) e (session st).

(** [localStorage.setItem / removeItem ('classpoll_session')]. *)
Definition setSession (s : option User) (st : AppState) : AppState :=
  mkState (currentUser st) (currentView st) (viewHistory st) (users st)
          (announcements st) (exams st) (polls st) (resources st)
          (isLoading st) (dbError st) s.

(** ** Access filter (the four [useMemo] blocks [filteredAnnouncements],
    [filteredExams], [filteredPolls], [filteredResources]) *)

(** [!x] for [x : string | undefined]: true on [undefined] and on the empty
    string. *)
Definition falsy (x : option string) : bool :=
  match x with
  | None => true
  | Some s => bool_decide (s = "")
  end.

(** [currentUser.role === UserRole.ADMIN || currentUser.role ===
    UserRole.RESPONSABLE]. *)
Definition unrestricted (u : User) : bool :=
  bool_decide (user_role u = ADMIN) || bool_decide (user_role u = RESPONSABLE).

(** [a => !a.targetClass || a.targetClass === currentUser.classGroup]. *)
Definition visibleTo (u : User) (targetClass : option string) : bool :=
  falsy targetClass || bool_decide (targetClass = user_classGroup u).

(** The body shared by the four filters; [target] reads the [targetClass]
    field of an item. *)
Definition accessFilter {A : Type} (target : A → option string)
    (cu : option User) (items : list A) : list A :=
  match cu with
  | None => items
  | Some u =>
      if unrestricted u then items
      else filter (λ a, visibleTo u (target a) = true) items
  end.

Definition filteredAnnouncements (st : AppState) : list Announcement :=
  accessFilter ann_targetClass (currentUser st) (announcements st).

Definition filteredExams (st : AppState) : list Exam :=
  accessFilter exam_targetClass (currentUser st) (exams st).

Definition filteredPolls (st : AppState) : list Poll :=
  accessFilter poll_targetClass (currentUser st) (polls st).

Definition filteredResources (st : AppState) : list Resource :=
  accessFilter res_targetClass (currentUser st) (resources st).

(** ** Login *)

(** [users.find (u => u.email.toLowerCase () === email.toLowerCase () &&
    u.password === password)]. *)
Definition credentialsMatch `{Host} (email password : string) (u : User) : bool :=
  bool_decide (toLowerCase (user_email u) = toLowerCase email)
  && bool_decide (user_password u = password).

(** [handleLogin]: the returned boolean is the function's result. *)
Definition handleLogin `{Host} (st : AppState) (email password : string)
    : bool * AppState :=
  match List.find (credentialsMatch email password) (users st) with
  | Some user =>
      (true,
       setViewHistory []
         (setCurrentView DASHBOARD
            (setCurrentUser (Some user) (setSession (Some user) st))))
  | None => (false, st)
  end.

Definition handleLogout (st : AppState) : AppState :=
  setViewHistory [] (setCurrentUser None (setSession None st)).

(** ** The remote store, seen from the client

    Every [await supabase.from (table)...] is recorded as a [RemoteCall]; what
    the store answers is an input of the action. *)

Inductive RemoteResult :=
  | RemoteOk
  | RemoteError (message : string).

Inductive RemoteCall :=
  | SelectAll (table : string)
  | InsertUser (u : User)
  | InsertAnnouncement (a : Announcement)
  | InsertExam (e : Exam)
  | InsertPoll (p : Poll)
  | InsertResource (r : Resource)
  | UpdatePollRow (p : Poll)
  | UpdatePollVotes (pollId : string) (voted_user_ids : gmap string string)
                    (options : list PollOption).

(** The answer to a [select ('*')]: an error, or the rows ([data || []]). *)
Inductive Fetched (A : Type) :=
  | FetchError
  | FetchRows (rows : list A).
Arguments FetchError {A}.
Arguments FetchRows {A} rows.

(** The column [voted_user_ids] of a stored poll: missing, the array of the
    old format, or the mapping of the new one. *)
Inductive VotedUserIds :=
  | VotedNull
  | VotedArray (ids : list string)
  | VotedMap (m : gmap string string).

Record PollRow := mkPollRow {
  row_id : string;
  row_title : string;
  row_options : option (list PollOption);
  row_is_anonymous : bool;
  row_created_at : Z;
  row_expires_at : Z;
  row_target_class : option string;
  row_created_by_id : string;
  row_voted_user_ids : VotedUserIds
}.

(** What the store holds when [fetchData] runs.  For the users,
    announcements, exams and resources the mapping from column names to field
    names is the identity of the model.  [resources_table] is [None] when the
    select fails or returns no data (the code then leaves [resources] as it
    is). *)
Record RemoteTables := mkTables {
  users_table : Fetched User;
  admin_insert : RemoteResult;
  announcements_table : Fetched Announcement;
  exams_table : Fetched Exam;
  polls_table : Fetched PollRow;
  resources_table : option (list Resource)
}.

(** The callback of [setPolls ((pollData || []).map (p => ...))]. *)
Definition loadPoll (p : PollRow) : Poll :=
  let votesMap :=
    match row_voted_user_ids p with
    | VotedMap m => m
    | VotedArray _ | VotedNull => ∅
    end in
  mkPoll (row_id p) (row_title p) (default [] (row_options p))
         (row_is_anonymous p) (row_created_at p) (row_expires_at p)
         (row_target_class p) (row_created_by_id p) votesMap.

(** The message of [setDbError] (accents dropped). *)
Definition DB_ERROR : string :=
  "Erreur de connexion a la base de donnees. Assurez-vous d'avoir execute le script SQL.".

(** [catch] and [finally] of [fetchData]. *)
Definition fetchFailed (st : AppState) : AppState :=
  setIsLoading false (setDbError (Some DB_ERROR) st).

(** Session restoration inside [fetchData]. *)
Definition restoreSession (mappedUsers : list User) (st : AppState) : AppState :=
  match session st with
  | None => st
  | Some sessionUser =>
      match List.find (λ u, bool_decide (user_id u = user_id sessionUser))
                      mappedUsers with
      | Some validUser => setCurrentUser (Some validUser) st
      | None => setSession None st
      end
  end.

(** [fetchData]: the bulk load.  The settings and the class groups are
    fetched first; they are not part of [AppState], only the calls are
    recorded.  [setIsLoading (prev => prev ? true : false)] leaves the cell
    as it is.  A failed select throws: the cells set before it keep their new
    value, and [catch] and [finally] run. *)
Definition fetchData (st : AppState) (db : RemoteTables)
    : AppState * list RemoteCall :=
  let st0 := setDbError None st in
  let c0 := [SelectAll "school_settings"; SelectAll "class_groups";
             SelectAll "users"] in
  match users_table db with
  | FetchError => (fetchFailed st0, c0)
  | FetchRows userData =>
      let '(mappedUsers, c1) :=
        match userData with
        | [] =>
            match admin_insert db with
            | RemoteOk => ([DEFAULT_ADMIN], c0 ++ [InsertUser DEFAULT_ADMIN])
            | RemoteError _ => ([], c0 ++ [InsertUser DEFAULT_ADMIN])
            end
        | _ => (userData, c0)
        end in
      let st1 := restoreSession mappedUsers (setUsers mappedUsers st0) in
      let c2 := c1 ++ [SelectAll "announcements"] in
      match announcements_table db with
      | FetchError => (fetchFailed st1, c2)
      | FetchRows annData =>
          let st2 := setAnnouncements (λ _, annData) st1 in
          let c3 := c2 ++ [SelectAll "exams"] in
          match exams_table db with
          | FetchError => (fetchFailed st2, c3)
          | FetchRows examData =>
              let st3 := setExams (λ _, examData) st2 in
              let c4 := c3 ++ [SelectAll "polls"] in
              match polls_table db with
              | FetchError => (fetchFailed st3, c4)
              | FetchRows pollData =>
                  let st4 := setPolls (λ _, loadPoll <$> pollData) st3 in
                  let c5 := c4 ++ [SelectAll "resources"] in
                  let st5 :=
                    match resources_table db with
                    | Some resData => setResources (λ _, resData) st4
                    | None => st4
                    end in
                  (setIsLoading false st5, c5)
              end
          end
      end
  end.

(** ** Create mutations

    [data] carries the fields the caller provides; the fields the action
    fills in ([id], author or creator, [createdAt], [userVotes]) are
    overwritten, as [{...data, id: newId, ...}] does.  [newId] is the result
    of [generateId ()], [now] that of [new Date ()], and [res] the answer to
    the insert. *)

Definition addAnnouncement (st : AppState) (data : Announcement)
    (newId : string) (res : RemoteResult) : AppState * list RemoteCall :=
  match currentUser st with
  | None => (st, [])
  | Some cu =>
      let newAnn :=
        mkAnnouncement newId (ann_title data) (ann_subject data)
          (ann_meetLink data) (ann_date data) (ann_isUrgent data)
          (ann_targetClass data) (user_id cu) (user_name cu) in
      let st1 := setAnnouncements (λ prev, newAnn :: prev) st in
      match res with
      | RemoteOk => (st1, [InsertAnnouncement newAnn])
      | RemoteError _ =>
          (setAnnouncements (λ prev, filter (λ a, ann_id a ≠ newId) prev) st1,
           [InsertAnnouncement newAnn])
      end
  end.

Definition addExam (st : AppState) (data : Exam) (newId : string)
    (res : RemoteResult) : AppState * list RemoteCall :=
  match currentUser st with
  | None => (st, [])
  | Some cu =>
      let newExam :=
        mkExam newId (exam_subject data) (exam_date data)
          (exam_startTime data) (exam_durationMinutes data) (exam_room data)
          (exam_notes data) (exam_targetClass data) (user_id cu) in
      let st1 := setExams (λ prev, prev ++ [newExam]) st in
      match res with
      | RemoteOk => (st1, [InsertExam newExam])
      | RemoteError _ =>
          (setExams (λ prev, filter (λ e, exam_id e ≠ newId) prev) st1,
           [InsertExam newExam])
      end
  end.

Definition addPoll (st : AppState) (data : Poll) (newId : string) (now : Z)
    (res : RemoteResult) : AppState * list RemoteCall :=
  match currentUser st with
  | None => (st, [])
  | Some cu =>
      let newPoll :=
        mkPoll newId (poll_title data) (poll_options data)
          (poll_isAnonymous data) now (poll_expiresAt data)
          (poll_targetClass data) (user_id cu) ∅ in
      let st1 := setPolls (λ prev, newPoll :: prev) st in
      match res with
      | RemoteOk => (st1, [InsertPoll newPoll])
      | RemoteError _ =>
          (setPolls (λ prev, filter (λ p, poll_id p ≠ newId) prev) st1,
           [InsertPoll newPoll])
      end
  end.

Definition addResource (st : AppState) (data : Resource) (newId : string)
    (now : Z) (res : RemoteResult) : AppState * list RemoteCall :=
  match currentUser st with
  | None => (st, [])
  | Some cu =>
      let newRes :=
        mkResource newId (res_title data) (res_type data) (res_content data)
          (res_subject data) (res_description data) (res_targetClass data)
          now (user_id cu) in
      let st1 := setResources (λ prev, newRes :: prev) st in
      match res with
      | RemoteOk => (st1, [InsertResource newRes])
      | RemoteError _ =>
          (setResources (λ prev, filter (λ r, res_id r ≠ newId) prev) st1,
           [InsertResource newRes])
      end
  end.

(** ** Polls: update and vote *)

(** [updatePoll]: replace by id, restore the snapshot on failure. *)
Definition updatePoll (st : AppState) (updatedPoll : Poll)
    (res : RemoteResult) : AppState * list RemoteCall :=
  let prevPolls := polls st in
  let st1 :=
    setPolls (λ prev,
      (λ p, if bool_decide (poll_id p = poll_id updatedPoll)
            then updatedPoll else p) <$> prev) st in
  match res with
  | RemoteOk => (st1, [UpdatePollRow updatedPoll])
  | RemoteError _ => (setPolls (λ _, prevPolls) st1, [UpdatePollRow updatedPoll])
  end.

(** The callback of [pollToUpdate.options.map] in [votePoll];
    [previousOptionId] is [undefined] when the user has no ledger entry. *)
Definition recount (previousOptionId : option string) (optionId : string)
    (o : PollOption) : PollOption :=
  let voteCount := opt_votes o in
  let voteCount :=
    if bool_decide (Some (opt_id o) = previousOptionId)
    then Z.max 0 (voteCount - 1) else voteCount in
  let voteCount :=
    if bool_decide (opt_id o = optionId) then voteCount + 1 else voteCount in
  mkPollOption (opt_id o) (opt_text o) voteCount.

(** Step 2 of [votePoll]: the new ledger, the new options, [updatedPoll]. *)
Definition castVote (pollToUpdate : Poll) (userId optionId : string) : Poll :=
  let previousOptionId := poll_userVotes pollToUpdate !! userId in
  let updatedUserVotes := <[userId := optionId]> (poll_userVotes pollToUpdate) in
  let updatedOptions :=
    recount previousOptionId optionId <$> poll_options pollToUpdate in
  mkPoll (poll_id pollToUpdate) (poll_title pollToUpdate) updatedOptions
         (poll_isAnonymous pollToUpdate) (poll_createdAt pollToUpdate)
         (poll_expiresAt pollToUpdate) (poll_targetClass pollToUpdate)
         (poll_createdById pollToUpdate) updatedUserVotes.

(** [votePoll]; [res] answers the update, and [db] is what the store holds
    if the rollback has to refetch. *)
Definition votePoll (st : AppState) (pollId optionId : string)
    (res : RemoteResult) (db : RemoteTables) : AppState * list RemoteCall :=
  match currentUser st with
  | None => (st, [])
  | Some cu =>
      match List.find (λ p, bool_decide (poll_id p = pollId)) (polls st) with
      | None => (st, [])
      | Some pollToUpdate =>
          let previousOptionId := poll_userVotes pollToUpdate !! user_id cu in
          if bool_decide (previousOptionId = Some optionId) then (st, [])
          else
            let updatedPoll := castVote pollToUpdate (user_id cu) optionId in
            let st1 :=
              setPolls (λ prev,
                (λ p, if bool_decide (poll_id p = pollId)
                      then updatedPoll else p) <$> prev) st in
            let call :=
              UpdatePollVotes pollId (poll_userVotes updatedPoll)
                              (poll_options updatedPoll) in
            match res with
            | RemoteOk => (st1, [call])
            | RemoteError _ =>
                let '(st2, calls) := fetchData st1 db in (st2, call :: calls)
            end
      end
  end.

(** ** Notification feed *)

Definition MS_PER_HOUR : Z := 3600000.
Definition MS_PER_DAY : Z := 86400000.

(** [differenceInHours] and [differenceInDays] come from the dependency
    date-fns; the definitions follow the source of the library.

    [differenceInHours] divides the difference of the two time values by the
    length of an hour and rounds toward zero. *)
Definition differenceInHours (dateLeft dateRight : Z) : Z :=
  Z.quot (dateLeft - dateRight) MS_PER_HOUR.

(** [compareLocalAsc] compares year, month, day, hours, minutes, seconds and
    milliseconds of the two dates as the local getters give them, in this
    order: the comparison of the two wall-clock readings.  The result is -1,
    0 or 1. *)
Definition compareLocalAsc `{Host} (dateLeft dateRight : Z) : Z :=
  Z.sgn (localTime dateLeft - localTime dateRight).

(** [startOfDay]: [date.setHours (0, 0, 0, 0)], local midnight of the local
    day of [date]. *)
Definition startOfDay `{Host} (date : Z) : Z :=
  utcTime (localTime date - localTime date `mod` MS_PER_DAY).

(** [getTimezoneOffsetInMilliseconds]: the time value of [date] minus
    [Date.UTC] of its local fields. *)
Definition getTimezoneOffsetInMilliseconds `{Host} (date : Z) : Z :=
  date - localTime date.

(** [Math.round (n / d)] for [d > 0]: to the nearest integer, halves up. *)
Definition roundDiv (n d : Z) : Z := (2 * n + d) `div` (2 * d).

Definition differenceInCalendarDays `{Host} (dateLeft dateRight : Z) : Z :=
  let startOfDayLeft := startOfDay dateLeft in
  let startOfDayRight := startOfDay dateRight in
  let timestampLeft :=
    startOfDayLeft - getTimezoneOffsetInMilliseconds startOfDayLeft in
  let timestampRight :=
    startOfDayRight - getTimezoneOffsetInMilliseconds startOfDayRight in
  roundDiv (timestampLeft - timestampRight) MS_PER_DAY.

(** [date.setDate (date.getDate () + days)]: the same wall-clock time,
    [days] local days later. *)
Definition shiftDate `{Host} (date days : Z) : Z :=
  utcTime (localTime date + days * MS_PER_DAY).

(** [differenceInDays]: the number of full local days between the dates.  In
    JavaScript [0 === -0] holds, which the last-day test relies on when
    [sign] is 0. *)
Definition differenceInDays `{Host} (dateLeft dateRight : Z) : Z :=
  let sign := compareLocalAsc dateLeft dateRight in
  let difference := Z.abs (differenceInCalendarDays dateLeft dateRight) in
  let shifted := shiftDate dateLeft (- (sign * difference)) in
  let isLastDayNotFull :=
    if bool_decide (compareLocalAsc shifted dateRight = - sign)
    then 1 else 0 in
  sign * (difference - isLastDayNotFull).

(** The conditions of the three [forEach] loops. *)
Definition examDue `{Host} (now : Z) (exam : Exam) : bool :=
  let daysLeft := differenceInDays (exam_date exam) now in
  (0 <=? daysLeft) && (daysLeft <=? 7).

Definition announcementRecent (now : Z) (ann : Announcement) : bool :=
  let hoursAgo := differenceInHours now (ann_date ann) in
  (0 <=? hoursAgo) && (hoursAgo <=? 48).

(** [poll.userVotes && poll.userVotes[currentUser.id]], as a condition. *)
Definition hasVoted (cu : User) (poll : Poll) : bool :=
  negb (falsy (poll_userVotes poll !! user_id cu)).

Definition pollAwaitsVote (cu : User) (now : Z) (poll : Poll) : bool :=
  let hoursAgo := differenceInHours now (poll_createdAt poll) in
  (0 <=? hoursAgo) && (hoursAgo <=? 48) && negb (hasVoted cu poll).

(** The objects pushed by the three loops. *)
Definition examAlert `{Host} (exam : Exam) : AppNotification :=
  mkNotification ("exam-" +:+ exam_id exam) alert
    ("Examen: " +:+ exam_subject exam)
    ("Le " +:+ toLocaleDateString (exam_date exam) +:+ " (" +:+
     exam_startTime exam +:+ ")")
    DS (exam_date exam).

Definition announcementInfo (ann : Announcement) : AppNotification :=
  mkNotification ("ann-" +:+ ann_id ann) info
    (if ann_isUrgent ann then "URGENT: " +:+ ann_title ann
     else "Annonce: " +:+ ann_title ann)
    (ann_subject ann) INFOS (ann_date ann).

Definition pollSuccess (poll : Poll) : AppNotification :=
  mkNotification ("poll-" +:+ poll_id poll) success "Nouveau sondage"
    (poll_title poll) POLLS (poll_createdAt poll).

(** [notifs.sort ((a, b) => b.timestamp - a.timestamp)]: [Array.prototype.sort]
    is stable, so the result is the stable sort by decreasing timestamp;
    insertion from the right computes it. *)
Fixpoint insertByTimestamp (n : AppNotification) (l : list AppNotification)
    : list AppNotification :=
  match l with
  | [] => [n]
  | m :: r =>
      if notif_timestamp m <=? notif_timestamp n then n :: m :: r
      else m :: insertByTimestamp n r
  end.

Definition sortByTimestamp (l : list AppNotification) : list AppNotification :=
  foldr insertByTimestamp [] l.

(** [notifications]; [now] is the value of [new Date ()]. *)
Definition notifications `{Host} (st : AppState) (now : Z)
    : list AppNotification :=
  match currentUser st with
  | None => []
  | Some cu =>
      let notifs :=
        flat_map (λ exam, if examDue now exam then [examAlert exam] else [])
                 (filteredExams st)
        ++ flat_map (λ ann, if announcementRecent now ann
                            then [announcementInfo ann] else [])
                    (filteredAnnouncements st)
        ++ flat_map (λ poll, if pollAwaitsVote cu now poll
                             then [pollSuccess poll] else [])
                    (filteredPolls st) in
      sortByTimestamp notifs
  end.

(** ** Vote counts and the ledger *)

(** [poll.options.reduce ((acc, curr) => acc + curr.votes, 0)], the
    [totalVotes] of the Polls view. *)
Definition totalVotes (p : Poll) : Z :=
  fold_left (λ acc curr, acc + opt_votes curr) (poll_options p) 0.

(** The number of entries of the ledger. *)
Definition ledgerSize (p : Poll) : Z := Z.of_nat (size (poll_userVotes p)).

Definition balanced (p : Poll) : Prop := totalVotes p = ledgerSize p.

#[global] Instance balanced_dec p : Decision (balanced p).
Proof. unfold balanced. apply _. Defined.

(** The number of ledger entries that select option [optionId]. *)
Definition tally (ledger : gmap string string) (optionId : string) : Z :=
  Z.of_nat (size (filter (λ kv, kv.2 = optionId) ledger)).

(** A poll whose counts are the tallies of its ledger: the option ids are
    pairwise distinct, every ledger entry selects an option of the poll, and
    each count is the number of entries selecting the option. *)
Definition tallyConsistent (p : Poll) : Prop :=
  NoDup (opt_id <$> poll_options p)
  ∧ (∀ u o, poll_userVotes p !! u = Some o → o ∈ opt_id <$> poll_options p)
  ∧ Forall (λ o, opt_votes o = tally (poll_userVotes p) (opt_id o))
           (poll_options p).

(** The options the Polls form submits for a new poll: distinct ids, no
    votes. *)
Definition freshOptions (opts : list PollOption) : Prop :=
  NoDup (opt_id <$> opts) ∧ Forall (λ o, opt_votes o = 0) opts.

Definition tablesConsistent (db : RemoteTables) : Prop :=
  match polls_table db with
  | FetchError => True
  | FetchRows rows => Forall (λ r, tallyConsistent (loadPoll r)) rows
  end.

(** [optionId] is an option of the poll that [votePoll] would update. *)
Definition optionOf (st : AppState) (pollId optionId : string) : Prop :=
  ∀ p, List.find (λ p, bool_decide (poll_id p = pollId)) (polls st) = Some p →
       optionId ∈ opt_id <$> poll_options p.

(** The operations that write the poll cache, with any arguments. *)
Inductive cacheStep `{Host} : AppState → AppState → Prop :=
  | step_fetchData st db :
      cacheStep st (fetchData st db).1
  | step_handleLogin st email password :
      cacheStep st (handleLogin st email password).2
  | step_addPoll st data newId now res :
      cacheStep st (addPoll st data newId now res).1
  | step_updatePoll st updatedPoll res :
      cacheStep st (updatePoll st updatedPoll res).1
  | step_votePoll st pollId optionId res db :
      cacheStep st (votePoll st pollId optionId res db).1.

Definition reachable `{Host} (st : AppState) : Prop :=
  rtc cacheStep initialState st.

(** The same operations, fed with tally-consistent ledgers and counts. *)
Inductive tallyStep `{Host} : AppState → AppState → Prop :=
  | tally_fetchData st db :
      tablesConsistent db →
      tallyStep st (fetchData st db).1
  | tally_handleLogin st email password :
      tallyStep st (handleLogin st email password).2
  | tally_addPoll st data newId now res :
      freshOptions (poll_options data) →
      tallyStep st (addPoll st data newId now res).1
  | tally_updatePoll st updatedPoll res :
      tallyConsistent updatedPoll →
      tallyStep st (updatePoll st updatedPoll res).1
  | tally_votePoll st pollId optionId res db :
      optionOf st pollId optionId →
      res = RemoteOk ∨ tablesConsistent db →
      tallyStep st (votePoll st pollId optionId res db).1.

(** What [votePoll] does to one option when the vote moves from
    [previous] to [optionId]. *)
Definition voteMoved (previous : option string) (optionId : string)
    (o o' : PollOption) : Prop :=
  opt_id o' = opt_id o ∧ opt_text o' = opt_text o
  ∧ (Some (opt_id o) = previous →
       opt_votes o' = Z.max 0 (opt_votes o - 1) ∧ 0 ≤ opt_votes o'
       ∧ (1 ≤ opt_votes o → opt_votes o' = opt_votes o - 1))
  ∧ (opt_id o = optionId → opt_votes o' = opt_votes o + 1)
  ∧ (Some (opt_id o) ≠ previous → opt_id o ≠ optionId →
       opt_votes o' = opt_votes o).

(** ** Sample data used by the examples below *)
Module Sample.

(** ASCII lower-casing, standing for [toLowerCase] on ASCII input. *)
Definition lowerAscii (c : ascii) : ascii :=
  let n := nat_of_ascii c in
  if (Nat.leb 65 n && Nat.leb n 90)%bool then ascii_of_nat (n + 32) else c.

Fixpoint lowerString (s : string) : string :=
  match s with
  | EmptyString => EmptyString
  | String c r => String (lowerAscii c) (lowerString r)
  end.

(** The sample host keeps its clock on UTC. *)
Definition host : Host :=
  {| toLowerCase := lowerString; toLocaleDateString := λ _, "14/11/2023";
     localTime := λ t, t; utcTime := λ l, l |}.

Definition now : Z := 1700000000000.

Definition awa : User :=
  mkUser "u-awa" "Awa" "Awa@Eco.com" "secret" ELEVE (Some "10B").
Definition binta : User :=
  mkUser "u-binta" "Binta" "binta@eco.com" "passer25" ELEVE (Some "10A").
Definition admin : User :=
  mkUser "u-admin" "Direction" "faye@eco.com" "passer25" ADMIN None.

Definition examAt (id : string) (date : Z) (target : option string) : Exam :=
  mkExam id "Maths" date "08:00" 120 "B12" None target "u-admin".

Definition pollWith (id : string) (createdAt : Z) (yes no : Z)
    (ledger : gmap string string) : Poll :=
  mkPoll id "Sortie"
         [mkPollOption "opt-0" "Oui" yes; mkPollOption "opt-1" "Non" no]
         false createdAt (createdAt + 7 * MS_PER_DAY) None "u-admin" ledger.

Definition pollAt (id : string) (createdAt : Z)
    (ledger : gmap string string) : Poll :=
  pollWith id createdAt 0 0 ledger.

Definition announcement (id : string) : Announcement :=
  mkAnnouncement id "Reunion" "Parents" None now false None "u-admin"
                 "Direction".

Definition resource (id : string) : Resource :=
  mkResource id "Cours" "link" "https://example.org" "Maths" None None now
             "u-admin".

(** A state with [cu] logged in. *)
Definition loggedIn (cu : option User) (es : list Exam) (ps : list Poll)
    : AppState :=
  mkState cu DASHBOARD [] [awa; binta; admin] [announcement "a-1"] es ps
          [resource "r-1"] false None cu.

(** The store with the three users and nothing else. *)
Definition emptyTables : RemoteTables :=
  mkTables (FetchRows [awa; binta; admin]) RemoteOk (FetchRows [])
           (FetchRows []) (FetchRows []) (Some []).

(** A stored poll in the old format: one vote counted, the voters kept as
    an array. *)
Definition legacyRow : PollRow :=
  mkPollRow "p-old" "Cantine"
    (Some [mkPollOption "opt-0" "Oui" 1; mkPollOption "opt-1" "Non" 0])
    false now (now + 7 * MS_PER_DAY) None "u-admin" (VotedArray ["u-awa"]).

Definition legacyTables : RemoteTables :=
  mkTables (FetchRows [awa; binta; admin]) RemoteOk (FetchRows [])
           (FetchRows []) (FetchRows [legacyRow]) (Some []).

(** A session of the Polls view: load, log in, create a poll with two
    options, vote for the second, then edit the poll leaving one option
    field blank.  [handleSubmit] of the form drops the blank texts and maps
    the remaining ones onto the existing options by position, so that the
    poll passed to [updatePoll] keeps the first option only. *)
Definition s1 : AppState := (fetchData initialState emptyTables).1.
Definition s2 : AppState :=
  (handleLogin (H := host) s1 "awa@eco.com" "secret").2.
Definition s3 : AppState := (addPoll s2 (pollAt "" 0 ∅) "p-1" now RemoteOk).1.
Definition s4 : AppState := (votePoll s3 "p-1" "opt-1" RemoteOk emptyTables).1.
Definition edited (existingPoll : Poll) : Poll :=
  mkPoll (poll_id existingPoll) (poll_title existingPoll)
         (take 1 (poll_options existingPoll))
         (poll_isAnonymous existingPoll) (poll_createdAt existingPoll)
         (poll_expiresAt existingPoll) (poll_targetClass existingPoll)
         (poll_createdById existingPoll) (poll_userVotes existingPoll).
Definition s5 : AppState :=
  match polls s4 with
  | existingPoll :: _ => (updatePoll s4 (edited existingPoll) RemoteOk).1
  | [] => s4
  end.

End Sample.

(** * The rest of [App], the exam schedule and the polls form *)

(** ** Navigation ([changeView], [navigateBack]) *)

Definition changeView (st : AppState) (newView : ViewState) : AppState :=
  if bool_decide (newView = currentView st) then st
  else setCurrentView newView
         (setViewHistory (viewHistory st ++ [currentView st]) st).

(** [newHistory.pop ()] removes and returns the last view; a view is a
    non-empty string, so [if (lastView)] holds whenever there is one. *)
Definition navigateBack (st : AppState) : AppState :=
  if bool_decide (length (viewHistory st) = 0%nat)
  then setCurrentView DASHBOARD st
  else
    let st1 := setViewHistory (removelast (viewHistory st)) st in
    match last (viewHistory st) with
    | Some lastView => setCurrentView lastView st1
    | None => st1
    end.

(** The views the user went through, the current one last. *)
Definition trail (st : AppState) : list ViewState :=
  viewHistory st ++ [currentView st].

(** No view is followed by itself. *)
Definition noStutter (l : list ViewState) : Prop :=
  ∀ i a b, l !! i = Some a → l !! S i = Some b → a ≠ b.

(** The actions that write [currentView] or [viewHistory]. *)
Inductive navStep `{Host} : AppState → AppState → Prop :=
  | nav_changeView st newView : navStep st (changeView st newView)
  | nav_navigateBack st : navStep st (navigateBack st)
  | nav_handleLogin st email password :
      navStep st (handleLogin st email password).2
  | nav_handleLogout st : navStep st (handleLogout st).

(** ** Update and delete mutations, user management *)

(** The remote calls of these actions; [Refetch] wraps the calls of a
    [fetchData] started by an action. *)
Inductive MutationCall :=
  | DeleteFrom (table id : string)
  | UpdateExamRow (e : Exam)
  | UpdateResourceRow (r : Resource)
  | InsertUserRow (u : User)
  | UpdateUserRow (u : User)
  | UpdatePassword (id password : string)
  | Refetch (c : RemoteCall).

Definition deleteAnnouncement (st : AppState) (id : string)
    (res : RemoteResult) : AppState * list MutationCall :=
  let prevAnnouncements := announcements st in
  let st1 := setAnnouncements (λ prev, filter (λ a, ann_id a ≠ id) prev) st in
  match res with
  | RemoteOk => (st1, [DeleteFrom "announcements" id])
  | RemoteError _ =>
      (setAnnouncements (λ _, prevAnnouncements) st1,
       [DeleteFrom "announcements" id])
  end.

Definition updateExam (st : AppState) (updatedExam : Exam)
    (res : RemoteResult) : AppState * list MutationCall :=
  let prevExams := exams st in
  let st1 :=
    setExams (λ prev,
      (λ e, if bool_decide (exam_id e = exam_id updatedExam)
            then updatedExam else e) <$> prev) st in
  match res with
  | RemoteOk => (st1, [UpdateExamRow updatedExam])
  | RemoteError _ => (setExams (λ _, prevExams) st1, [UpdateExamRow updatedExam])
  end.

Definition deleteExam (st : AppState) (id : string) (res : RemoteResult)
    : AppState * list MutationCall :=
  let prevExams := exams st in
  let st1 := setExams (λ prev, filter (λ e, exam_id e ≠ id) prev) st in
  match res with
  | RemoteOk => (st1, [DeleteFrom "exams" id])
  | RemoteError _ => (setExams (λ _, prevExams) st1, [DeleteFrom "exams" id])
  end.

Definition deletePoll (st : AppState) (id : string) (res : RemoteResult)
    : AppState * list MutationCall :=
  let prevPolls := polls st in
  let st1 := setPolls (λ prev, filter (λ p, poll_id p ≠ id) prev) st in
  match res with
  | RemoteOk => (st1, [DeleteFrom "polls" id])
  | RemoteError _ => (setPolls (λ _, prevPolls) st1, [DeleteFrom "polls" id])
  end.

Definition updateResource (st : AppState) (updatedRes : Resource)
    (res : RemoteResult) : AppState * list MutationCall :=
  let prevResources := resources st in
  let st1 :=
    setResources (λ prev,
      (λ r, if bool_decide (res_id r = res_id updatedRes)
            then updatedRes else r) <$> prev) st in
  match res with
  | RemoteOk => (st1, [UpdateResourceRow updatedRes])
  | RemoteError _ =>
      (setResources (λ _, prevResources) st1, [UpdateResourceRow updatedRes])
  end.

Definition deleteResource (st : AppState) (id : string) (res : RemoteResult)
    : AppState * list MutationCall :=
  let prevResources := resources st in
  let st1 := setResources (λ prev, filter (λ r, res_id r ≠ id) prev) st in
  match res with
  | RemoteOk => (st1, [DeleteFrom "resources" id])
  | RemoteError _ =>
      (setResources (λ _, prevResources) st1, [DeleteFrom "resources" id])
  end.

(** [addUser]: the record, id included, comes from the caller; there is no
    guard on the current user. *)
Definition addUser (st : AppState) (user : User) (res : RemoteResult)
    : AppState * list MutationCall :=
  let st1 := setUsers (users st ++ [user]) st in
  match res with
  | RemoteOk => (st1, [InsertUserRow user])
  | RemoteError _ =>
      (setUsers (filter (λ u, user_id u ≠ user_id user) (users st1)) st1,
       [InsertUserRow user])
  end.

Definition updateUser (st : AppState) (updatedUser : User)
    (res : RemoteResult) : AppState * list MutationCall :=
  let prevUsers := users st in
  let st1 :=
    setUsers ((λ u, if bool_decide (user_id u = user_id updatedUser)
                    then updatedUser else u) <$> users st) st in
  match res with
  | RemoteOk => (st1, [UpdateUserRow updatedUser])
  | RemoteError _ => (setUsers prevUsers st1, [UpdateUserRow updatedUser])
  end.

(** [{ ...u, password: 'passer25' }]. *)
Definition withPassword (password : string) (u : User) : User :=
  mkUser (user_id u) (user_name u) (user_email u) password (user_role u)
         (user_classGroup u).

Definition resetUserPassword (st : AppState) (id : string)
    (res : RemoteResult) : AppState * list MutationCall :=
  let prevUsers := users st in
  let st1 :=
    setUsers ((λ u, if bool_decide (user_id u = id)
                    then withPassword "passer25" u else u) <$> users st) st in
  match res with
  | RemoteOk => (st1, [UpdatePassword id "passer25"])
  | RemoteError _ => (setUsers prevUsers st1, [UpdatePassword id "passer25"])
  end.

(** [deleteUser]: on failure the snapshot is restored and [fetchData] is
    started; [db] is what the store holds then. *)
Definition deleteUser (st : AppState) (id : string) (res : RemoteResult)
    (db : RemoteTables) : AppState * list MutationCall :=
  let prevUsers := users st in
  let st1 := setUsers (filter (λ u, user_id u ≠ id) (users st)) st in
  match res with
  | RemoteOk => (st1, [DeleteFrom "users" id])
  | RemoteError _ =>
      let '(st2, calls) := fetchData (setUsers prevUsers st1) db in
      (st2, DeleteFrom "users" id :: (Refetch <$> calls))
  end.

(** ** Values derived for the dashboard and the exam schedule *)

(** [Array.prototype.sort] with a comparator: the stable sort.  [before a b]
    says that the comparator does not put [b] strictly before [a]. *)
Fixpoint insertSorted {A} (before : A → A → bool) (x : A) (l : list A)
    : list A :=
  match l with
  | [] => [x]
  | y :: r =>
      if before x y then x :: y :: r else y :: insertSorted before x r
  end.

Definition stableSort {A} (before : A → A → bool) (l : list A) : list A :=
  foldr (insertSorted before) [] l.

(** [(a, b) => new Date (a.date).getTime () - new Date (b.date).getTime ()]. *)
Definition examEarlier (a b : Exam) : bool := exam_date a <=? exam_date b.

(** [(a, b) => new Date (b.date).getTime () - new Date (a.date).getTime ()]. *)
Definition announcementLater (a b : Announcement) : bool :=
  ann_date b <=? ann_date a.

Record Stats := mkStats {
  stat_students : nat;
  stat_exams : nat;
  stat_polls : nat;
  stat_resources : nat
}.

Definition stats (st : AppState) (now : Z) : Stats :=
  mkStats (length (filter (λ u, user_role u = ELEVE) (users st)))
          (length (filter (λ e, now ≤ exam_date e) (filteredExams st)))
          (length (filteredPolls st))
          (length (filteredResources st)).

(** [futureExams.sort (...)[0]]: [undefined] when there is none. *)
Definition upcomingExam (st : AppState) (now : Z) : option Exam :=
  head (stableSort examEarlier
          (filter (λ e, now ≤ exam_date e) (filteredExams st))).

Definition latestAnnouncement (st : AppState) : option Announcement :=
  head (stableSort announcementLater (filteredAnnouncements st)).

(** [filteredPolls.find (p => !p.userVotes || !p.userVotes[currentUser?.id
    || ''])]. *)
Definition activePoll (st : AppState) : option Poll :=
  let key := match currentUser st with
             | Some cu => user_id cu
             | None => ""
             end in
  List.find (λ p, falsy (poll_userVotes p !! key)) (filteredPolls st).

(** [sortedExams] of the exam schedule, and its [isUrgent] flag. *)
Definition sortedExams (exams : list Exam) : list Exam :=
  stableSort examEarlier exams.

Definition examUrgent `{Host} (now : Z) (exam : Exam) : bool :=
  let daysLeft := differenceInDays (exam_date exam) now in
  (0 <=? daysLeft) && (daysLeft <=? 3).

(** ** The polls form

    [blank o] stands for [o.trim () === ''], and [newOptionId idx] for the
    template [`opt-${Date.now ()}-${idx}`] evaluated at position [idx]. *)

Definition addOptionField (options : list string) : list string :=
  options ++ [""].

(** [options.filter ((_, i) => i !== index)] under [options.length > 2]. *)
Definition removeOptionField (options : list string) (index : nat)
    : list string :=
  if bool_decide (2 < length options)%nat then delete index options
  else options.

(** The options submitted for a new poll. *)
Definition createOptions (blank : string → bool) (newOptionId : nat → string)
    (options : list string) : list PollOption :=
  imap (λ idx text, mkPollOption (newOptionId idx) text 0)
       (filter (λ o, blank o = false) options).

(** The options submitted for an edited poll: the texts are mapped onto the
    existing options by position. *)
Definition editOptions (blank : string → bool) (newOptionId : nat → string)
    (existing : list PollOption) (options : list string) : list PollOption :=
  imap (λ idx text,
          match existing !! idx with
          | Some existingOpt =>
              mkPollOption (opt_id existingOpt) text (opt_votes existingOpt)
          | None => mkPollOption (newOptionId idx) text 0
          end)
       (filter (λ o, blank o = false) options).

(** [targetClass || undefined]. *)
Definition orUndefined (s : string) : option string :=
  if bool_decide (s = "") then None else Some s.

(** The poll passed to [onUpdate] by [handleSubmit]. *)
Definition editedPoll (blank : string → bool) (newOptionId : nat → string)
    (existingPoll : Poll) (title : string) (options : list string)
    (isAnonymous : bool) (targetClass : string) : Poll :=
  mkPoll (poll_id existingPoll) title
         (editOptions blank newOptionId (poll_options existingPoll) options)
         isAnonymous (poll_createdAt existingPoll)
         (poll_expiresAt existingPoll) (orUndefined targetClass)
         (poll_createdById existingPoll) (poll_userVotes existingPoll).

(** ** Time zones

    The wall-clock readings that [differenceInDays] goes through for two
    dates: local midnight of each, and the time of day of the left date on
    the local day of the right one.  A reading exists when the clock shows it
    ([utcTime] then gives an instant whose reading it is); a reading skipped
    by a forward clock change does not. *)
Definition readingExists `{Host} (l : Z) : Prop := localTime (utcTime l) = l.

Definition readingsExist `{Host} (dateLeft dateRight : Z) : Prop :=
  let l := localTime dateLeft in
  let r := localTime dateRight in
  readingExists (l - l `mod` MS_PER_DAY)
  ∧ readingExists (r - r `mod` MS_PER_DAY)
  ∧ readingExists (l - ((l - l `mod` MS_PER_DAY) - (r - r `mod` MS_PER_DAY))).

(** A zone whose offset from UTC never changes. *)
Definition fixedOffset `{Host} (offset : Z) : Prop :=
  (∀ t, localTime t = t + offset) ∧ (∀ l, utcTime l = l - offset).

Module Zones.

(** 2023-10-29T01:00:00Z, when the clocks of Europe/Paris go back from UTC+2
    to UTC+1. *)
Definition clocksGoBack : Z := 1698541200000.

(** A host on Paris time around that date.  A reading of the repeated hour
    denotes its first occurrence, as UTC(l) of ECMAScript has it. *)
Definition paris : Host :=
  {| toLowerCase := Sample.lowerString;
     toLocaleDateString := λ _, "29/10/2023";
     localTime := λ t,
       if t <? clocksGoBack then t + 2 * MS_PER_HOUR else t + MS_PER_HOUR;
     utcTime := λ l,
       if l <? clocksGoBack + 2 * MS_PER_HOUR then l - 2 * MS_PER_HOUR
       else l - MS_PER_HOUR |}.

(** 2023-10-21T10:00:00Z and 2023-10-29T11:00:00Z, noon in Paris. *)
Definition noonBefore : Z := 1697882400000.
Definition noonAfter : Z := 1698577200000.

End Zones.

(** * Properties *)

(** ** Lists: [find] and [filter] *)

Lemma find_none_iff {A} (f : A → bool) (l : list A) :
  List.find f l = None ↔ ∀ x, x ∈ l → f x = false.
Proof.
  induction l as [|a l IH]; simpl.
  - split; [intros _ x Hx; inversion Hx | done].
  - destruct (f a) eqn:Ha.
    + split; [done|]. intros Hall.
      rewrite (Hall a) in Ha; [done | left].
    + rewrite IH. split.
      * intros Hall x Hx. apply elem_of_cons in Hx as [-> | Hx]; auto.
      * intros Hall x Hx. apply Hall. by right.
Qed.

Lemma find_some_elem {A} (f : A → bool) (l : list A) (x : A) :
  List.find f l = Some x → x ∈ l ∧ f x = true.
Proof.
  intros Hf. apply find_some in Hf as [Hin Hx].
  split; [by apply list_elem_of_In | done].
Qed.

Lemma filter_all {A} (P : A → Prop) `{∀ x, Decision (P x)} (l : list A) :
  Forall P l → filter P l = l.
Proof.
  induction 1 as [|x l Hx _ IH]; [done|].
  rewrite filter_cons_True by done. by rewrite IH.
Qed.

(** Removing the items that carry an unused id removes nothing. *)
Lemma filter_unused_id {A} (id : A → string) (newId : string) (l : list A) :
  newId ∉ id <$> l → filter (λ a, id a ≠ newId) l = l.
Proof.
  intros Hfresh. apply filter_all, Forall_forall.
  intros a Ha Heq. apply Hfresh. rewrite <- Heq.
  by apply list_elem_of_fmap_2.
Qed.

(** ** Voting for the current selection, voting in an unknown poll,
    creating without a user *)

(** C3. If the ledger entry of the current user in the poll that [votePoll]
    finds already is the chosen option, [votePoll] returns at once: the whole
    state (ledger and counts included) is unchanged and no remote call is
    issued, whatever the store would have answered. *)
Theorem votePoll_same_option_noop st cu pollId optionId res db P :
  currentUser st = Some cu →
  List.find (λ p, bool_decide (poll_id p = pollId)) (polls st) = Some P →
  poll_userVotes P !! user_id cu = Some optionId →
  votePoll st pollId optionId res db = (st, []).
Proof.
  intros Hcu Hfind Hprev. unfold votePoll.
  rewrite Hcu, Hfind, Hprev.
  by rewrite bool_decide_eq_true_2.
Qed.

(** C9. If no poll of the cache has the given id, [votePoll] changes
    nothing in the state and issues no remote call. *)
Theorem votePoll_unknown_poll_noop st pollId optionId res db :
  (∀ p, p ∈ polls st → poll_id p ≠ pollId) →
  votePoll st pollId optionId res db = (st, []).
Proof.
  intros Hnone. unfold votePoll.
  destruct (currentUser st) as [cu|]; [|done].
  assert (List.find (λ p, bool_decide (poll_id p = pollId)) (polls st) = None)
    as ->; [|done].
  apply find_none_iff. intros p Hp.
  apply bool_decide_eq_false_2. by apply Hnone.
Qed.

(** C10. With no user logged in, each of the four create mutations returns
    the state it was given and issues no remote call. *)
Theorem create_without_user_noop st a e p r newId now res :
  currentUser st = None →
  addAnnouncement st a newId res = (st, [])
  ∧ addExam st e newId res = (st, [])
  ∧ addPoll st p newId now res = (st, [])
  ∧ addResource st r newId now res = (st, []).
Proof.
  intros Hcu. unfold addAnnouncement, addExam, addPoll, addResource.
  by rewrite Hcu.
Qed.

(** ** Rollback of a failed create *)

(** C4. When the insert fails, each create mutation ends in exactly the
    state it started from (so the collection is as before the optimistic
    insert: the new item is gone and nothing else moved).  The identifier
    returned by [generateId ()] is taken to be unused in the collection,
    which is what a random UUID provides. *)
Theorem failed_create_restores st a e p r newId now message :
  newId ∉ ann_id <$> announcements st →
  newId ∉ exam_id <$> exams st →
  newId ∉ poll_id <$> polls st →
  newId ∉ res_id <$> resources st →
  (addAnnouncement st a newId (RemoteError message)).1 = st
  ∧ (addExam st e newId (RemoteError message)).1 = st
  ∧ (addPoll st p newId now (RemoteError message)).1 = st
  ∧ (addResource st r newId now (RemoteError message)).1 = st.
Proof.
  intros Ha He Hp Hr.
  unfold addAnnouncement, addExam, addPoll, addResource.
  destruct st as [[cu|] view hist us anns exs pls ress load err sess];
    simpl in *; [|done].
  unfold setAnnouncements, setExams, setPolls, setResources; simpl.
  repeat split; f_equal.
  - rewrite filter_cons_False by (simpl; tauto).
    by apply filter_unused_id.
  - rewrite filter_app, (filter_unused_id exam_id) by done.
    rewrite filter_cons_False by (simpl; tauto).
    by rewrite filter_nil, app_nil_r.
  - rewrite filter_cons_False by (simpl; tauto).
    by apply filter_unused_id.
  - rewrite filter_cons_False by (simpl; tauto).
    by apply filter_unused_id.
Qed.

(** ** Login *)

(** C8. [handleLogin] answers [true] exactly when some user record has the
    same lower-cased email as the input and the same password; it then makes
    a user with these credentials the current user (the first such record of
    the collection).  When it answers [false] the state, and with it the
    current user, is unchanged. *)
Theorem handleLogin_spec `{Host} st email password :
  let matching (u : User) :=
    u ∈ users st
    ∧ toLowerCase (user_email u) = toLowerCase email
    ∧ user_password u = password in
  let result := handleLogin st email password in
  (result.1 = true ↔ ∃ u, matching u)
  ∧ (result.1 = true →
       ∃ u, matching u ∧ currentUser result.2 = Some u
            ∧ List.find (credentialsMatch email password) (users st) = Some u)
  ∧ (result.1 = false → result.2 = st).
Proof.
  intros matching result. subst result. unfold handleLogin.
  destruct (List.find _ (users st)) as [user|] eqn:Hfind; simpl.
  - apply find_some_elem in Hfind as Hu. destruct Hu as [Hin Hm].
    apply andb_true_iff in Hm as [He Hp].
    apply bool_decide_eq_true in He, Hp.
    assert (matching user) by done.
    split_and!; [naive_solver | naive_solver | done].
  - split_and!; [|done|done].
    split; [done|]. intros [u (Hin & He & Hp)].
    apply (proj1 (find_none_iff _ _)) with (x := u) in Hfind; [|done].
    unfold credentialsMatch in Hfind.
    rewrite !bool_decide_eq_true_2 in Hfind by done. done.
Qed.

Lemma votePoll_same_option_noop_witness :
  let st := Sample.loggedIn (Some Sample.awa) []
              [Sample.pollAt "p-1" Sample.now {["u-awa" := "opt-1"]}] in
  votePoll st "p-1" "opt-1" (RemoteError "offline") Sample.legacyTables
  = (st, []).
Proof.
  intros st.
  apply (votePoll_same_option_noop st Sample.awa "p-1" "opt-1" _ _
           (Sample.pollAt "p-1" Sample.now {["u-awa" := "opt-1"]}));
    vm_compute; reflexivity.
Defined.

Lemma votePoll_unknown_poll_noop_witness :
  let st := Sample.loggedIn (Some Sample.awa) []
              [Sample.pollAt "p-1" Sample.now ∅] in
  votePoll st "p-9" "opt-1" RemoteOk Sample.emptyTables = (st, []).
Proof.
  intros st. apply (votePoll_unknown_poll_noop st "p-9" "opt-1").
  intros p Hp. apply list_elem_of_singleton in Hp. rewrite Hp.
  simpl. discriminate.
Defined.

Lemma create_without_user_noop_witness :
  let st := Sample.loggedIn None [] [] in
  addAnnouncement st (Sample.announcement "") "id-1" RemoteOk = (st, [])
  ∧ addExam st (Sample.examAt "" Sample.now None) "id-1" RemoteOk = (st, [])
  ∧ addPoll st (Sample.pollAt "" 0 ∅) "id-1" Sample.now RemoteOk = (st, [])
  ∧ addResource st (Sample.resource "") "id-1" Sample.now RemoteOk = (st, []).
Proof.
  intros st. apply (create_without_user_noop st). reflexivity.
Defined.

Lemma failed_create_restores_witness :
  let st := Sample.loggedIn (Some Sample.admin)
              [Sample.examAt "e-1" Sample.now None]
              [Sample.pollAt "p-1" Sample.now ∅] in
  (addAnnouncement st (Sample.announcement "") "id-1" (RemoteError "offline")).1
  = st
  ∧ (addExam st (Sample.examAt "" Sample.now None) "id-1"
       (RemoteError "offline")).1 = st
  ∧ (addPoll st (Sample.pollAt "" 0 ∅) "id-1" Sample.now
       (RemoteError "offline")).1 = st
  ∧ (addResource st (Sample.resource "") "id-1" Sample.now
       (RemoteError "offline")).1 = st.
Proof.
  intros st.
  apply (failed_create_restores st);
    apply (bool_decide_unpack _); vm_compute; exact I.
Defined.

(** ** Access filter *)

Lemma visibleTo_iff (u : User) (t : option string) :
  visibleTo u t = true ↔ t = None ∨ t = Some "" ∨ t = user_classGroup u.
Proof.
  unfold visibleTo, falsy. rewrite orb_true_iff, bool_decide_eq_true.
  destruct t as [s|].
  - rewrite bool_decide_eq_true. intuition congruence.
  - intuition congruence.
Qed.

Lemma accessFilter_unrestricted {A} (target : A → option string) u items :
  user_role u = ADMIN ∨ user_role u = RESPONSABLE →
  accessFilter target (Some u) items = items.
Proof.
  intros Hrole. unfold accessFilter, unrestricted.
  destruct Hrole as [-> | ->]; done.
Qed.

Lemma accessFilter_restricted {A} (target : A → option string) u items :
  user_role u ≠ ADMIN → user_role u ≠ RESPONSABLE →
  accessFilter target (Some u) items
  = filter (λ a, target a = None ∨ target a = Some ""
                 ∨ target a = user_classGroup u) items.
Proof.
  intros Hadmin Hresp. unfold accessFilter, unrestricted.
  rewrite !bool_decide_eq_false_2 by done. simpl.
  apply list_filter_iff. intros a. apply visibleTo_iff.
Qed.

(** C5, amended.  For a logged-in Admin or Responsable each of the four
    filters returns its collection unchanged.  For any other user it returns,
    in their order, exactly the items whose target class is absent, is the
    empty string, or equals the user's class group. *)
Theorem accessFilter_spec st cu :
  currentUser st = Some cu →
  (user_role cu = ADMIN ∨ user_role cu = RESPONSABLE →
     filteredAnnouncements st = announcements st
     ∧ filteredExams st = exams st
     ∧ filteredPolls st = polls st
     ∧ filteredResources st = resources st)
  ∧ (user_role cu ≠ ADMIN → user_role cu ≠ RESPONSABLE →
     let sees (t : option string) :=
       t = None ∨ t = Some "" ∨ t = user_classGroup cu in
     filteredAnnouncements st
       = filter (λ a, sees (ann_targetClass a)) (announcements st)
     ∧ filteredExams st = filter (λ e, sees (exam_targetClass e)) (exams st)
     ∧ filteredPolls st = filter (λ p, sees (poll_targetClass p)) (polls st)
     ∧ filteredResources st
       = filter (λ r, sees (res_targetClass r)) (resources st)).
Proof.
  intros Hcu.
  unfold filteredAnnouncements, filteredExams, filteredPolls, filteredResources.
  rewrite Hcu. split.
  - intros Hrole. by rewrite !accessFilter_unrestricted.
  - intros Hadmin Hresp. cbv zeta.
    by rewrite !accessFilter_restricted.
Qed.

Lemma accessFilter_spec_witness :
  let st := Sample.loggedIn (Some Sample.awa)
              [Sample.examAt "e-1" Sample.now None;
               Sample.examAt "e-2" Sample.now (Some "10A");
               Sample.examAt "e-3" Sample.now (Some "10B")] [] in
  filteredExams st
  = filter (λ e, exam_targetClass e = None ∨ exam_targetClass e = Some ""
                 ∨ exam_targetClass e = Some "10B") (exams st).
Proof.
  intros st.
  destruct (accessFilter_spec st Sample.awa eq_refl) as [_ Hstudent].
  destruct Hstudent as (_ & Hexams & _); [discriminate | discriminate |].
  exact Hexams.
Defined.

(** The scenario of the spec: one school-wide item and one item for class
    10A.  A student of 10B sees the first, a student of 10A and an admin see
    both. *)
Example accessFilter_scenario :
  let items := [Sample.examAt "e-1" Sample.now None;
                Sample.examAt "e-2" Sample.now (Some "10A")] in
  filteredExams (Sample.loggedIn (Some Sample.awa) items [])
    = [Sample.examAt "e-1" Sample.now None]
  ∧ filteredExams (Sample.loggedIn (Some Sample.binta) items []) = items
  ∧ filteredExams (Sample.loggedIn (Some Sample.admin) items []) = items.
Proof. vm_compute. done. Qed.

(** C5 as stated fails: an item whose target class is the empty string is
    neither without target class nor of the class of a 10B student, yet the
    filter keeps it. *)
Lemma accessFilter_empty_target_counterexample :
  let item := Sample.examAt "e-1" Sample.now (Some "") in
  let st := Sample.loggedIn (Some Sample.awa) [item] [] in
  user_role Sample.awa = ELEVE
  ∧ filteredExams st = [item]
  ∧ filter (λ e, exam_targetClass e = None
                 ∨ exam_targetClass e = user_classGroup Sample.awa) (exams st)
    = [].
Proof. vm_compute. done. Qed.

(** ** Moving a vote *)

Lemma recount_voteMoved previous optionId o :
  previous ≠ Some optionId →
  voteMoved previous optionId o (recount previous optionId o).
Proof.
  intros Hne. unfold voteMoved, recount; simpl.
  repeat case_bool_decide; subst; simpl; try congruence;
    (split_and!; [done | done | intros Hprev | intros Hopt | intros Hprev Hopt]);
    try done; lia.
Qed.

Lemma find_replaced (pollId : string) (P P' : Poll) (l : list Poll) :
  poll_id P' = pollId →
  List.find (λ p, bool_decide (poll_id p = pollId)) l = Some P →
  List.find (λ p, bool_decide (poll_id p = pollId))
    ((λ p, if bool_decide (poll_id p = pollId) then P' else p) <$> l)
  = Some P'.
Proof.
  intros Hid. induction l as [|q l IH]; simpl; [done|].
  destruct (bool_decide (poll_id q = pollId)) eqn:Hq.
  - intros _. by rewrite bool_decide_eq_true_2.
  - rewrite Hq. apply IH.
Qed.

(** C2. When the current user's ledger entry in the poll found by
    [votePoll] is absent or differs from the chosen option, and the store
    accepts the update, [votePoll] replaces that poll by one in which the
    ledger entry of the user is the chosen option (other entries are kept)
    and in which every option keeps its id and text, the previously selected
    option has its count lowered by one with a floor at zero, the chosen
    option has its count raised by one, and every other option keeps its
    count.  The new ledger and options are what is sent to the store. *)
Theorem votePoll_moves_vote st cu pollId optionId db P :
  currentUser st = Some cu →
  List.find (λ p, bool_decide (poll_id p = pollId)) (polls st) = Some P →
  poll_userVotes P !! user_id cu ≠ Some optionId →
  let previous := poll_userVotes P !! user_id cu in
  let result := votePoll st pollId optionId RemoteOk db in
  ∃ P',
    polls result.1
      = (λ p, if bool_decide (poll_id p = pollId) then P' else p) <$> polls st
    ∧ List.find (λ p, bool_decide (poll_id p = pollId)) (polls result.1)
      = Some P'
    ∧ poll_userVotes P' !! user_id cu = Some optionId
    ∧ (∀ u, u ≠ user_id cu → poll_userVotes P' !! u = poll_userVotes P !! u)
    ∧ Forall2 (voteMoved previous optionId) (poll_options P) (poll_options P')
    ∧ result.2 = [UpdatePollVotes pollId (poll_userVotes P') (poll_options P')].
Proof.
  intros Hcu Hfind Hne previous result. subst result. unfold votePoll.
  rewrite Hcu, Hfind. rewrite bool_decide_eq_false_2 by done. simpl.
  exists (castVote P (user_id cu) optionId). split_and!.
  - done.
  - apply find_replaced with (P := P); [|done]. simpl.
    apply find_some_elem in Hfind as [_ Hid].
    by apply bool_decide_eq_true in Hid.
  - simpl. apply lookup_insert_eq.
  - intros u Hu. simpl. by apply lookup_insert_ne.
  - simpl. apply Forall2_fmap_r, Forall_Forall2_diag, Forall_forall.
    intros o _. by apply recount_voteMoved.
  - done.
Qed.

Lemma votePoll_moves_vote_witness :
  let P := Sample.pollWith "p-1" Sample.now 1 0 {["u-awa" := "opt-0"]} in
  let st := Sample.loggedIn (Some Sample.awa) [] [P] in
  let result := votePoll st "p-1" "opt-1" RemoteOk Sample.emptyTables in
  ∃ P',
    polls result.1
      = (λ p, if bool_decide (poll_id p = "p-1") then P' else p) <$> polls st
    ∧ List.find (λ p, bool_decide (poll_id p = "p-1")) (polls result.1)
      = Some P'
    ∧ poll_userVotes P' !! "u-awa" = Some "opt-1"
    ∧ (∀ u, u ≠ "u-awa" → poll_userVotes P' !! u = poll_userVotes P !! u)
    ∧ Forall2 (voteMoved (Some "opt-0") "opt-1")
              (poll_options P) (poll_options P')
    ∧ result.2 = [UpdatePollVotes "p-1" (poll_userVotes P') (poll_options P')].
Proof.
  intros P st.
  apply (votePoll_moves_vote st Sample.awa "p-1" "opt-1" Sample.emptyTables P).
  - reflexivity.
  - reflexivity.
  - vm_compute. discriminate.
Defined.

(** The counts of the sample poll after the vote has moved. *)
Example moved_vote_counts :
  let P := Sample.pollWith "p-1" Sample.now 1 0 {["u-awa" := "opt-0"]} in
  let st := Sample.loggedIn (Some Sample.awa) [] [P] in
  polls (votePoll st "p-1" "opt-1" RemoteOk Sample.emptyTables).1
  = [Sample.pollWith "p-1" Sample.now 0 1 {["u-awa" := "opt-1"]}].
Proof. vm_compute. done. Qed.

(** ** Notification feed *)

Section Feed.
Context `{Host}.

Lemma insertByTimestamp_perm n l : insertByTimestamp n l ≡ₚ n :: l.
Proof.
  induction l as [|m r IH]; simpl; [done|].
  destruct (notif_timestamp m <=? notif_timestamp n); [done|].
  rewrite IH. apply Permutation_swap.
Qed.

Lemma sortByTimestamp_perm l : sortByTimestamp l ≡ₚ l.
Proof.
  induction l as [|n l IH]; simpl; [done|].
  by rewrite insertByTimestamp_perm, IH.
Qed.

(** A [forEach] that pushes one object under a condition. *)
Lemma flat_map_guard {A B} (c : A → bool) (f : A → B) (l : list A) :
  flat_map (λ x, if c x then [f x] else []) l
  = f <$> filter (λ x, c x = true) l.
Proof.
  induction l as [|x l IH]; simpl; [done|].
  destruct (c x) eqn:Hc.
  - rewrite filter_cons_True by done. simpl. by rewrite IH.
  - rewrite filter_cons_False by (rewrite Hc; done). by rewrite IH.
Qed.

Lemma filter_type_all {A} (t : NotificationType) (f : A → AppNotification)
    (l : list A) :
  (∀ x, notif_type (f x) = t) →
  filter (λ n, notif_type n = t) (f <$> l) = f <$> l.
Proof.
  intros Hf. apply filter_all, Forall_fmap, Forall_forall.
  intros x _. apply Hf.
Qed.

Lemma filter_type_none {A} (t : NotificationType) (f : A → AppNotification)
    (l : list A) :
  (∀ x, notif_type (f x) ≠ t) →
  filter (λ n, notif_type n = t) (f <$> l) = [].
Proof.
  intros Hf. induction l as [|x l IH]; simpl; [done|].
  rewrite filter_cons_False by apply Hf. apply IH.
Qed.

(** The feed of a logged-in user, up to the order of the items. *)
Lemma notifications_perm st cu now :
  currentUser st = Some cu →
  notifications st now
  ≡ₚ (examAlert <$> filter (λ e, examDue now e = true) (filteredExams st))
     ++ (announcementInfo
           <$> filter (λ a, announcementRecent now a = true)
                      (filteredAnnouncements st))
     ++ (pollSuccess
           <$> filter (λ p, pollAwaitsVote cu now p = true)
                      (filteredPolls st)).
Proof.
  intros Hcu. unfold notifications. rewrite Hcu.
  rewrite sortByTimestamp_perm.
  by rewrite !flat_map_guard.
Qed.

(** The whole-unit window of a truncated difference. *)
Lemma quot_window (x d k : Z) :
  0 < d → 0 ≤ k →
  (0 <=? Z.quot x d) && (Z.quot x d <=? k) = true ↔ - d < x < (k + 1) * d.
Proof.
  intros Hd Hk. rewrite andb_true_iff, !Z.leb_le.
  Z.to_euclidean_division_equations. nia.
Qed.

Lemma roundDiv_days (k : Z) : roundDiv (k * MS_PER_DAY) MS_PER_DAY = k.
Proof.
  unfold roundDiv, MS_PER_DAY. Z.to_euclidean_division_equations. lia.
Qed.

Lemma differenceInCalendarDays_readings a b :
  readingsExist a b →
  differenceInCalendarDays a b
  = localTime a `div` MS_PER_DAY - localTime b `div` MS_PER_DAY.
Proof.
  intros (Ha & Hb & _).
  unfold differenceInCalendarDays, getTimezoneOffsetInMilliseconds, startOfDay.
  unfold readingExists in Ha, Hb.
  replace (utcTime (localTime a - localTime a `mod` MS_PER_DAY)
           - (utcTime (localTime a - localTime a `mod` MS_PER_DAY)
              - localTime (utcTime (localTime a - localTime a `mod` MS_PER_DAY)))
           - (utcTime (localTime b - localTime b `mod` MS_PER_DAY)
              - (utcTime (localTime b - localTime b `mod` MS_PER_DAY)
                 - localTime
                     (utcTime (localTime b - localTime b `mod` MS_PER_DAY)))))
    with ((localTime a `div` MS_PER_DAY - localTime b `div` MS_PER_DAY)
          * MS_PER_DAY).
  - apply roundDiv_days.
  - rewrite Ha, Hb. unfold MS_PER_DAY.
    Z.to_euclidean_division_equations. lia.
Qed.

(** When the readings it goes through exist, [differenceInDays] is the
    difference of the two wall-clock readings in days, rounded toward
    zero. *)
Lemma differenceInDays_readings a b :
  readingsExist a b →
  differenceInDays a b = Z.quot (localTime a - localTime b) MS_PER_DAY.
Proof.
  intros Hab. pose proof Hab as (_ & _ & Hshift).
  unfold differenceInDays.
  rewrite (differenceInCalendarDays_readings a b Hab).
  unfold compareLocalAsc, shiftDate.
  set (x := localTime a) in *. set (y := localTime b) in *.
  set (k := x `div` MS_PER_DAY - y `div` MS_PER_DAY).
  assert (Z.sgn (x - y) * Z.abs k = k) as Hk.
  { subst k. unfold MS_PER_DAY. Z.to_euclidean_division_equations. nia. }
  rewrite Hk.
  assert (x + - k * MS_PER_DAY
          = x - (x - x `mod` MS_PER_DAY - (y - y `mod` MS_PER_DAY))) as ->.
  { subst k. unfold MS_PER_DAY. Z.to_euclidean_division_equations. lia. }
  unfold readingExists in Hshift. rewrite Hshift.
  case_bool_decide as Hlast; subst k; unfold MS_PER_DAY in *;
    Z.to_euclidean_division_equations; nia.
Qed.

(** With a constant offset every reading exists, and readings differ as the
    instants do. *)
Lemma fixedOffset_readings offset a b :
  fixedOffset offset →
  readingsExist a b ∧ localTime a - localTime b = a - b.
Proof.
  intros [Hlocal Hutc]. unfold readingsExist, readingExists.
  rewrite !Hutc, !Hlocal. split_and!; lia.
Qed.

Lemma examDue_days now e :
  examDue now e = true ↔ 0 ≤ differenceInDays (exam_date e) now ≤ 7.
Proof. unfold examDue. by rewrite andb_true_iff, !Z.leb_le. Qed.

Lemma examDue_readings now e :
  readingsExist (exam_date e) now →
  examDue now e = true
  ↔ - MS_PER_DAY < localTime (exam_date e) - localTime now < 8 * MS_PER_DAY.
Proof.
  intros Hr. unfold examDue. rewrite (differenceInDays_readings _ _ Hr).
  by rewrite quot_window.
Qed.

Lemma examUrgent_readings now e :
  readingsExist (exam_date e) now →
  examUrgent now e = true
  ↔ - MS_PER_DAY < localTime (exam_date e) - localTime now < 4 * MS_PER_DAY.
Proof.
  intros Hr. unfold examUrgent. rewrite (differenceInDays_readings _ _ Hr).
  by rewrite quot_window.
Qed.

Lemma pollAwaitsVote_iff cu now p :
  pollAwaitsVote cu now p = true
  ↔ (- MS_PER_HOUR < now - poll_createdAt p < 49 * MS_PER_HOUR)
    ∧ (poll_userVotes p !! user_id cu = None
       ∨ poll_userVotes p !! user_id cu = Some "").
Proof.
  unfold pollAwaitsVote, differenceInHours, hasVoted, falsy.
  rewrite (andb_true_iff (_ && _)), quot_window by done.
  rewrite negb_involutive.
  destruct (poll_userVotes p !! user_id cu) as [o|].
  - rewrite bool_decide_eq_true. intuition congruence.
  - intuition congruence.
Qed.

End Feed.

(** C6, amended.  For a logged-in user, the alert items of the feed are,
    one for one, the visible exams for which [differenceInDays (date, now)]
    lies between 0 and 7.  [differenceInDays] counts full days between the
    local wall-clock readings of the two instants: when the readings it goes
    through exist (none is skipped by a forward clock change), these are the
    exams whose reading is strictly less than one day before the reading of
    [now] and strictly less than eight days after it.  In a zone whose offset
    from UTC is constant these are the exams dated strictly less than one day
    before [now] and strictly less than eight days after it; there an exam
    dated exactly seven days from [now] is among them, and one dated eight
    days from [now] or one day before [now] is not. *)
Theorem exam_alerts_spec `{Host} st cu now :
  currentUser st = Some cu →
  filter (λ n, notif_type n = alert) (notifications st now)
    ≡ₚ examAlert <$> filter (λ e, examDue now e = true) (filteredExams st)
  ∧ (∀ e, examDue now e = true
          ↔ 0 ≤ differenceInDays (exam_date e) now ≤ 7)
  ∧ (∀ e, readingsExist (exam_date e) now →
          examDue now e = true
          ↔ - MS_PER_DAY < localTime (exam_date e) - localTime now
            < 8 * MS_PER_DAY)
  ∧ (∀ offset e, fixedOffset offset →
       (examDue now e = true
        ↔ - MS_PER_DAY < exam_date e - now < 8 * MS_PER_DAY)
       ∧ (exam_date e = now + 7 * MS_PER_DAY → examDue now e = true)
       ∧ (exam_date e = now + 8 * MS_PER_DAY → examDue now e = false)
       ∧ (exam_date e = now - MS_PER_DAY → examDue now e = false)).
Proof.
  intros Hcu. split_and!.
  - rewrite (notifications_perm st cu now Hcu), !filter_app.
    rewrite (filter_type_all alert examAlert) by done.
    rewrite (filter_type_none alert announcementInfo) by done.
    rewrite (filter_type_none alert pollSuccess) by done.
    by rewrite !app_nil_r.
  - apply examDue_days.
  - apply examDue_readings.
  - intros offset e Hfixed.
    destruct (fixedOffset_readings offset (exam_date e) now Hfixed)
      as [Hr Hdiff].
    pose proof (examDue_readings now e Hr) as Hdue. rewrite Hdiff in Hdue.
    split_and!; [done | | |].
    + intros He. apply Hdue. unfold MS_PER_DAY in *. lia.
    + intros He. apply not_true_is_false. rewrite Hdue.
      unfold MS_PER_DAY in *. lia.
    + intros He. apply not_true_is_false. rewrite Hdue.
      unfold MS_PER_DAY in *. lia.
Qed.

Lemma exam_alerts_spec_witness :
  let st := Sample.loggedIn (Some Sample.awa)
              [Sample.examAt "e-1" (Sample.now + 7 * MS_PER_DAY) None;
               Sample.examAt "e-2" (Sample.now + 8 * MS_PER_DAY) None;
               Sample.examAt "e-3" (Sample.now - MS_PER_DAY) None] [] in
  filter (λ n, notif_type n = alert)
         (notifications (H := Sample.host) st Sample.now)
  ≡ₚ examAlert (H := Sample.host)
       <$> filter (λ e, examDue (H := Sample.host) Sample.now e = true)
                  (filteredExams st).
Proof.
  intros st.
  exact (proj1 (exam_alerts_spec (H := Sample.host) st Sample.awa Sample.now
                  eq_refl)).
Defined.

(** The three cases of the spec, computed: only the exam dated seven days
    from now raises an alert. *)
Example exam_alerts_scenario :
  let st := Sample.loggedIn (Some Sample.awa)
              [Sample.examAt "e-1" (Sample.now + 7 * MS_PER_DAY) None;
               Sample.examAt "e-2" (Sample.now + 8 * MS_PER_DAY) None;
               Sample.examAt "e-3" (Sample.now - MS_PER_DAY) None] [] in
  notif_id <$> filter (λ n, notif_type n = alert)
                      (notifications (H := Sample.host) st Sample.now)
  = ["exam-e-1"].
Proof. vm_compute. done. Qed.

(** Across a clock change the days are local days.  On Paris time, an exam
    8 times 24 hours after noon of 21 October 2023 is at 11:00 of the 29th,
    seven full days away, and raises an alert; an exam 24 hours before noon
    of the 29th is at 13:00 of the 28th, less than a full day away, and
    raises one too.  On a UTC clock neither does. *)
Example exam_alerts_clock_change :
  let late :=
    Sample.examAt "e-1" (Zones.noonBefore + 8 * MS_PER_DAY) None in
  let past := Sample.examAt "e-2" (Zones.noonAfter - MS_PER_DAY) None in
  differenceInDays (H := Zones.paris) (exam_date late) Zones.noonBefore = 7
  ∧ examDue (H := Zones.paris) Zones.noonBefore late = true
  ∧ examDue (H := Sample.host) Zones.noonBefore late = false
  ∧ differenceInDays (H := Zones.paris) (exam_date past) Zones.noonAfter = 0
  ∧ examDue (H := Zones.paris) Zones.noonAfter past = true
  ∧ examDue (H := Sample.host) Zones.noonAfter past = false.
Proof. vm_compute. done. Qed.

(** C6 as stated fails: an exam dated one hour before [now], and an exam
    dated seven days and one hour after [now], are both outside
    [[now, now + 7 days]], and each raises an alert. *)
Lemma exam_alerts_window_counterexample :
  let early := Sample.examAt "e-1" (Sample.now - MS_PER_HOUR) None in
  let late :=
    Sample.examAt "e-2" (Sample.now + 7 * MS_PER_DAY + MS_PER_HOUR) None in
  let st := Sample.loggedIn (Some Sample.awa) [early; late] [] in
  notif_id <$> filter (λ n, notif_type n = alert)
                      (notifications (H := Sample.host) st Sample.now)
    = ["exam-e-2"; "exam-e-1"]
  ∧ ¬ (Sample.now ≤ exam_date early ≤ Sample.now + 7 * MS_PER_DAY)
  ∧ ¬ (Sample.now ≤ exam_date late ≤ Sample.now + 7 * MS_PER_DAY).
Proof.
  split_and!.
  - vm_compute. done.
  - vm_compute. intros [Hle _]. by apply Hle.
  - vm_compute. intros [_ Hle]. by apply Hle.
Qed.

(** C7, amended.  For a logged-in user, the success items of the feed are,
    one for one, the visible polls whose age in whole hours
    [differenceInHours (now, createdAt)], rounded toward zero, lies between 0
    and 48 (created strictly less than 49 hours before [now] and strictly less
    than one hour after it) and for which the ledger entry of the user is
    absent or the empty string.  A poll created 47 hours ago is among them
    when the user has no entry, and is not when the user has a non-empty
    entry. *)
Theorem poll_success_spec `{Host} st cu now :
  currentUser st = Some cu →
  filter (λ n, notif_type n = success) (notifications st now)
    ≡ₚ pollSuccess
         <$> filter (λ p, pollAwaitsVote cu now p = true) (filteredPolls st)
  ∧ (∀ p, pollAwaitsVote cu now p = true
          ↔ (- MS_PER_HOUR < now - poll_createdAt p < 49 * MS_PER_HOUR)
            ∧ (poll_userVotes p !! user_id cu = None
               ∨ poll_userVotes p !! user_id cu = Some ""))
  ∧ (∀ p, poll_createdAt p = now - 47 * MS_PER_HOUR →
          poll_userVotes p !! user_id cu = None →
          pollAwaitsVote cu now p = true)
  ∧ (∀ p o, poll_userVotes p !! user_id cu = Some o → o ≠ "" →
            pollAwaitsVote cu now p = false).
Proof.
  intros Hcu. split_and!.
  - rewrite (notifications_perm st cu now Hcu), !filter_app.
    rewrite (filter_type_none success examAlert) by done.
    rewrite (filter_type_none success announcementInfo) by done.
    by rewrite (filter_type_all success pollSuccess) by done.
  - apply pollAwaitsVote_iff.
  - intros p Hp Hnone. apply pollAwaitsVote_iff.
    split; [unfold MS_PER_HOUR in *; lia | by left].
  - intros p o Ho Hne. apply not_true_is_false.
    rewrite pollAwaitsVote_iff, Ho. intros [_ [?|?]]; congruence.
Qed.

Lemma poll_success_spec_witness :
  let st := Sample.loggedIn (Some Sample.awa) []
              [Sample.pollAt "p-1" (Sample.now - 47 * MS_PER_HOUR) ∅;
               Sample.pollAt "p-2" (Sample.now - 47 * MS_PER_HOUR)
                             {["u-awa" := "opt-0"]}] in
  filter (λ n, notif_type n = success)
         (notifications (H := Sample.host) st Sample.now)
  ≡ₚ pollSuccess
       <$> filter (λ p, pollAwaitsVote Sample.awa Sample.now p = true)
                  (filteredPolls st).
Proof.
  intros st.
  exact (proj1 (poll_success_spec (H := Sample.host) st Sample.awa Sample.now
                  eq_refl)).
Defined.

(** The two cases of the spec, computed: of two polls created 47 hours ago,
    only the one in which the user has no ledger entry is announced. *)
Example poll_success_scenario :
  let st := Sample.loggedIn (Some Sample.awa) []
              [Sample.pollAt "p-1" (Sample.now - 47 * MS_PER_HOUR) ∅;
               Sample.pollAt "p-2" (Sample.now - 47 * MS_PER_HOUR)
                             {["u-awa" := "opt-0"]}] in
  notif_id <$> filter (λ n, notif_type n = success)
                      (notifications (H := Sample.host) st Sample.now)
  = ["poll-p-1"].
Proof. vm_compute. done. Qed.

(** C7 as stated fails: a poll created 48 hours and 30 minutes before [now]
    was not created within the last 48 hours, yet it is announced to a user
    without ledger entry; and a poll created 47 hours ago is announced to a
    user whose ledger entry is the empty string. *)
Lemma poll_success_window_counterexample :
  let old :=
    Sample.pollAt "p-1" (Sample.now - 48 * MS_PER_HOUR - 1800000) ∅ in
  let blank :=
    Sample.pollAt "p-2" (Sample.now - 47 * MS_PER_HOUR) {["u-awa" := ""]} in
  let st := Sample.loggedIn (Some Sample.awa) [] [old; blank] in
  notif_id <$> filter (λ n, notif_type n = success)
                      (notifications (H := Sample.host) st Sample.now)
    = ["poll-p-2"; "poll-p-1"]
  ∧ poll_userVotes old !! user_id Sample.awa = None
  ∧ ¬ (Sample.now - 48 * MS_PER_HOUR ≤ poll_createdAt old ≤ Sample.now)
  ∧ poll_userVotes blank !! user_id Sample.awa = Some "".
Proof.
  split_and!.
  - vm_compute. done.
  - vm_compute. done.
  - vm_compute. intros [Hle _]. by apply Hle.
  - vm_compute. done.
Qed.

(** ** Tallies of a ledger *)

Lemma tally_nonneg m oid : 0 ≤ tally m oid.
Proof. unfold tally. lia. Qed.

Lemma tally_empty oid : tally ∅ oid = 0.
Proof. unfold tally. by rewrite map_filter_empty, map_size_empty. Qed.

Lemma tally_insert_fresh (m : gmap string string) u o oid :
  m !! u = None →
  tally (<[u:=o]> m) oid = tally m oid + (if decide (o = oid) then 1 else 0).
Proof.
  intros Hu. unfold tally. destruct (decide (o = oid)) as [Heq|Hne].
  - rewrite map_filter_insert_True by done.
    rewrite map_size_insert_None; [lia|].
    apply map_lookup_filter_None_2. by left.
  - rewrite map_filter_insert_not'; [lia | done |].
    intros y Hy. congruence.
Qed.

Lemma tally_insert (m : gmap string string) u o oid :
  tally (<[u:=o]> m) oid
  = tally (delete u m) oid + (if decide (o = oid) then 1 else 0).
Proof.
  rewrite <- (insert_delete_eq m). apply tally_insert_fresh, lookup_delete_eq.
Qed.

Lemma tally_delete (m : gmap string string) u oid :
  tally m oid
  = tally (delete u m) oid
    + match m !! u with
      | Some p => if decide (p = oid) then 1 else 0
      | None => 0
      end.
Proof.
  destruct (m !! u) as [p|] eqn:Hu.
  - rewrite <- (insert_delete_id m u p Hu) at 1.
    apply tally_insert_fresh, lookup_delete_eq.
  - rewrite delete_id by done. lia.
Qed.

(** ** Sums over the options *)

Lemma sum_votes_from (l : list PollOption) (a : Z) :
  fold_left (λ acc curr, acc + opt_votes curr) l a
  = a + fold_left (λ acc curr, acc + opt_votes curr) l 0.
Proof.
  revert a. induction l as [|o l IH]; intros a; simpl; [lia|].
  rewrite (IH (a + opt_votes o)), (IH (0 + opt_votes o)). lia.
Qed.

Lemma sum_votes_cons (o : PollOption) (l : list PollOption) :
  fold_left (λ acc curr, acc + opt_votes curr) (o :: l) 0
  = opt_votes o + fold_left (λ acc curr, acc + opt_votes curr) l 0.
Proof. simpl. by rewrite sum_votes_from. Qed.

(** Among options with distinct ids, exactly one carries a given id of the
    list. *)
Lemma sum_indicator (x : string) (l : list PollOption) :
  NoDup (opt_id <$> l) →
  foldr (λ o acc, (if decide (x = opt_id o) then 1 else 0) + acc) 0 l
  = if decide (x ∈ opt_id <$> l) then 1 else 0.
Proof.
  induction l as [|o l IH]; intros Hnd.
  - cbn [foldr]. case_decide as Hin; [|done].
    by apply elem_of_nil in Hin.
  - rewrite fmap_cons in Hnd |- *. cbn [foldr].
    apply NoDup_cons in Hnd as [Hnotin Hnd]. rewrite (IH Hnd).
    destruct (decide (x = opt_id o)) as [->|Hne].
    + rewrite (decide_False (P := opt_id o ∈ opt_id <$> l)) by done.
      rewrite decide_True; [done | left].
    + destruct (decide (x ∈ opt_id <$> l)) as [Hin|Hout].
      * rewrite decide_True; [done | by right].
      * rewrite decide_False; [done|].
        intros Hin. apply elem_of_cons in Hin as [?|?]; done.
Qed.

(** The tallies of the options add up to the size of the ledger when every
    entry selects one of the options and the ids are distinct. *)
Lemma sum_tallies (l : list PollOption) (m : gmap string string) :
  NoDup (opt_id <$> l) →
  (∀ u o, m !! u = Some o → o ∈ opt_id <$> l) →
  foldr (λ o acc, tally m (opt_id o) + acc) 0 l = Z.of_nat (size m).
Proof.
  intros Hnd. induction m as [|u x m Hu IH] using map_ind; intros Hval.
  - rewrite map_size_empty. clear Hnd Hval.
    induction l as [|o l IHl]; simpl; [done|].
    rewrite tally_empty, IHl. done.
  - rewrite map_size_insert_None by done.
    assert (foldr (λ o acc, tally (<[u:=x]> m) (opt_id o) + acc) 0 l
            = foldr (λ o acc, tally m (opt_id o) + acc) 0 l
              + foldr (λ o acc, (if decide (x = opt_id o) then 1 else 0) + acc)
                      0 l) as ->.
    { clear -Hu. induction l as [|o l IHl]; simpl; [done|].
      rewrite IHl, (tally_insert_fresh m u x) by done. lia. }
    rewrite IH, sum_indicator by first
      [ done
      | intros u' o' Hu'; apply (Hval u' o');
        rewrite lookup_insert_ne; [done | congruence] ].
    rewrite decide_True; [lia|].
    apply (Hval u x), lookup_insert_eq.
Qed.

Lemma tallyConsistent_balanced p : tallyConsistent p → balanced p.
Proof.
  intros (Hnd & Hval & Hcount). unfold balanced, totalVotes, ledgerSize.
  rewrite <- (sum_tallies (poll_options p)) by done.
  clear Hnd Hval. induction Hcount as [|o l Ho _ IH]; [done|].
  rewrite sum_votes_cons, IH, Ho. done.
Qed.

(** ** The operations keep tally-consistent polls tally-consistent *)

Lemma recount_ids previous optionId (l : list PollOption) :
  opt_id <$> (recount previous optionId <$> l) = opt_id <$> l.
Proof. rewrite <- list_fmap_compose. by apply list_fmap_ext. Qed.

Lemma castVote_consistent P userId optionId :
  tallyConsistent P →
  optionId ∈ opt_id <$> poll_options P →
  poll_userVotes P !! userId ≠ Some optionId →
  tallyConsistent (castVote P userId optionId).
Proof.
  intros (Hnd & Hval & Hcount) Hopt Hne. unfold tallyConsistent; simpl.
  rewrite recount_ids. split_and!.
  - done.
  - intros u o Hu. apply lookup_insert_Some in Hu as [[_ <-] | [_ Hu]];
      [done | by apply (Hval u)].
  - apply Forall_fmap. eapply Forall_impl; [exact Hcount|].
    intros o Ho. simpl in Ho |- *.
    rewrite tally_insert.
    pose proof (tally_delete (poll_userVotes P) userId (opt_id o)) as Hdel.
    pose proof (tally_nonneg (delete userId (poll_userVotes P)) (opt_id o)).
    destruct (poll_userVotes P !! userId) as [prev|] eqn:Hprev.
    + repeat case_bool_decide; repeat case_decide; simplify_eq; lia.
    + repeat case_bool_decide; repeat case_decide; simplify_eq; lia.
Qed.

Lemma newPoll_consistent id title opts anon created expires target creator :
  freshOptions opts →
  tallyConsistent
    (mkPoll id title opts anon created expires target creator ∅).
Proof.
  intros [Hnd Hzero]. unfold tallyConsistent; simpl. split_and!.
  - done.
  - intros u o Hu. by rewrite lookup_empty in Hu.
  - eapply Forall_impl; [exact Hzero|].
    intros o Ho. simpl in Ho. by rewrite tally_empty.
Qed.

Lemma Forall_replaced (Q : Poll → Prop) (pollId : string) (P' : Poll)
    (l : list Poll) :
  Q P' → Forall Q l →
  Forall Q ((λ p, if bool_decide (poll_id p = pollId) then P' else p) <$> l).
Proof.
  intros HP' Hl. apply Forall_fmap. eapply Forall_impl; [exact Hl|].
  intros p Hp. simpl. by destruct (bool_decide _).
Qed.

Lemma Forall_filtered {A} (Q P : A → Prop) `{∀ x, Decision (P x)}
    (l : list A) :
  Forall Q l → Forall Q (filter P l).
Proof.
  rewrite !Forall_forall. intros Hl x Hx.
  apply list_elem_of_filter in Hx as [_ Hx]. by apply Hl.
Qed.

Lemma restoreSession_polls us st : polls (restoreSession us st) = polls st.
Proof.
  unfold restoreSession. destruct (session st); [|done].
  by destruct (List.find _ us).
Qed.

(** After a bulk load the poll cache is what it was (a select before the
    polls failed) or the stored rows, mapped. *)
Lemma fetchData_polls st db :
  polls (fetchData st db).1 = polls st
  ∨ ∃ rows, polls_table db = FetchRows rows
            ∧ polls (fetchData st db).1 = loadPoll <$> rows.
Proof.
  unfold fetchData.
  destruct (users_table db) as [|userData]; [by left|].
  destruct (match userData with [] => _ | _ => _ end) as [mappedUsers c1].
  destruct (announcements_table db) as [|annData];
    [left; simpl; by rewrite restoreSession_polls|].
  destruct (exams_table db) as [|examData];
    [left; simpl; by rewrite restoreSession_polls|].
  destruct (polls_table db) as [|pollData];
    [left; simpl; by rewrite restoreSession_polls|].
  right. exists pollData. split; [done|].
  by destruct (resources_table db).
Qed.

Lemma fetchData_consistent st db :
  tablesConsistent db →
  Forall tallyConsistent (polls st) →
  Forall tallyConsistent (polls (fetchData st db).1).
Proof.
  intros Hdb Hst. destruct (fetchData_polls st db) as [-> | (rows & Hrows & ->)];
    [done|].
  unfold tablesConsistent in Hdb. rewrite Hrows in Hdb.
  by apply Forall_fmap.
Qed.

Lemma handleLogin_polls `{Host} st email password :
  polls (handleLogin st email password).2 = polls st.
Proof. unfold handleLogin. by destruct (List.find _ (users st)). Qed.

Section Invariant.
Context `{Host}.

Lemma tallyStep_consistent st st' :
  tallyStep st st' →
  Forall tallyConsistent (polls st) →
  Forall tallyConsistent (polls st').
Proof.
  intros Hstep Hst.
  destruct Hstep as [st db Hdb | st email password | st data newId now res Hfresh
                    | st updatedPoll res Hupd | st pollId optionId res db Hopt Hres].
  - by apply fetchData_consistent.
  - by rewrite handleLogin_polls.
  - unfold addPoll. destruct (currentUser st) as [cu|]; [|done].
    assert (Forall tallyConsistent
              (mkPoll newId (poll_title data) (poll_options data)
                 (poll_isAnonymous data) now (poll_expiresAt data)
                 (poll_targetClass data) (user_id cu) ∅ :: polls st)) as Hnew.
    { constructor; [by apply newPoll_consistent | done]. }
    destruct res; simpl; [done | by apply Forall_filtered].
  - unfold updatePoll. destruct res; simpl; [|done].
    by apply Forall_replaced.
  - unfold votePoll. destruct (currentUser st) as [cu|]; [|done].
    destruct (List.find _ (polls st)) as [P|] eqn:Hfind; [|done].
    case_bool_decide as Hprev; [done|].
    assert (Forall tallyConsistent
              ((λ p, if bool_decide (poll_id p = pollId)
                     then castVote P (user_id cu) optionId else p)
                 <$> polls st)) as Hvoted.
    { apply Forall_replaced; [|done].
      apply castVote_consistent; [| by apply Hopt | done].
      apply find_some_elem in Hfind as [HP _].
      by apply (proj1 (Forall_forall _ _) Hst). }
    destruct res as [|message]; simpl; [done|].
    destruct Hres as [|Hdb]; [done|].
    match goal with
    | |- context [fetchData ?s db] =>
        pose proof (fetchData_consistent s db Hdb Hvoted) as Hload;
        destruct (fetchData s db) as [st2 calls]
    end.
    exact Hload.
Qed.

Lemma tallySteps_consistent st st' :
  rtc tallyStep st st' →
  Forall tallyConsistent (polls st) →
  Forall tallyConsistent (polls st').
Proof.
  induction 1 as [st | st mid st' Hstep _ IH]; [done|].
  intros Hst. apply IH. by apply (tallyStep_consistent st).
Qed.

End Invariant.

(** C1, amended.  Call a poll tally-consistent when its option ids are
    pairwise distinct, every ledger entry selects one of its options, and the
    count of each option is the number of ledger entries selecting it.
    Starting from a cache of tally-consistent polls (the empty cache of the
    first render is one), after any sequence of bulk loads of
    tally-consistent rows, logins, [addPoll] with distinct option ids and
    zero counts, [updatePoll] with a tally-consistent poll, and [votePoll]
    for an option of the poll voted in, every poll of the cache is
    tally-consistent, and the sum of its option counts equals the number of
    entries of its ledger. *)
Theorem tally_invariant `{Host} st st' :
  Forall tallyConsistent (polls st) →
  rtc tallyStep st st' →
  Forall (λ p, tallyConsistent p ∧ balanced p) (polls st').
Proof.
  intros Hst Hsteps.
  eapply Forall_impl; [exact (tallySteps_consistent st st' Hsteps Hst)|].
  intros p Hp. split; [done | by apply tallyConsistent_balanced].
Qed.

Lemma tally_invariant_witness :
  Forall (λ p, tallyConsistent p ∧ balanced p) (polls Sample.s4).
Proof.
  apply (tally_invariant (H := Sample.host) initialState Sample.s4).
  - constructor.
  - apply (rtc_l _ _ Sample.s1);
      [apply (tally_fetchData initialState Sample.emptyTables); constructor|].
    apply (rtc_l _ _ Sample.s2);
      [exact (tally_handleLogin Sample.s1 "awa@eco.com" "secret")|].
    apply (rtc_l _ _ Sample.s3).
    { apply (tally_addPoll Sample.s2 (Sample.pollAt "" 0 ∅) "p-1" Sample.now
               RemoteOk).
      split; [apply (bool_decide_unpack _); vm_compute; exact I|].
      repeat constructor. }
    apply rtc_once.
    apply (tally_votePoll Sample.s3 "p-1" "opt-1" RemoteOk Sample.emptyTables);
      [|by left].
    intros p Hp. vm_compute in Hp. injection Hp as <-.
    apply (bool_decide_unpack _). vm_compute. exact I.
Defined.

(** The sample session up to the vote: one vote counted, one ledger entry. *)
Example tally_after_vote :
  totalVotes <$> polls Sample.s4 = [1]
  ∧ ledgerSize <$> polls Sample.s4 = [1].
Proof. vm_compute. done. Qed.

(** C1 as stated fails, in two ways.  In the sample session the user votes
    for the second option of a poll and the poll is then edited with one
    option field left blank: the edit drops the second option and its count,
    the ledger keeps the entry.  And a bulk load of a poll stored in the old
    format keeps its counts and replaces its voters by an empty ledger. *)
Lemma cache_balance_counterexample :
  let legacy := (fetchData initialState Sample.legacyTables).1 in
  reachable (H := Sample.host) Sample.s5
  ∧ totalVotes <$> polls Sample.s5 = [0]
  ∧ ledgerSize <$> polls Sample.s5 = [1]
  ∧ ¬ Forall balanced (polls Sample.s5)
  ∧ reachable (H := Sample.host) legacy
  ∧ totalVotes <$> polls legacy = [1]
  ∧ ledgerSize <$> polls legacy = [0]
  ∧ ¬ Forall balanced (polls legacy).
Proof.
  split_and!.
  - unfold reachable.
    apply (rtc_l _ _ Sample.s1); [apply step_fetchData|].
    apply (rtc_l _ _ Sample.s2);
      [exact (step_handleLogin Sample.s1 "awa@eco.com" "secret")|].
    apply (rtc_l _ _ Sample.s3); [apply step_addPoll|].
    apply (rtc_l _ _ Sample.s4); [apply step_votePoll|].
    unfold Sample.s5. destruct (polls Sample.s4) as [|existingPoll rest].
    + apply rtc_refl.
    + apply rtc_once, step_updatePoll.
  - vm_compute. done.
  - vm_compute. done.
  - intros Hall. apply (bool_decide_pack _) in Hall. vm_compute in Hall.
    exact Hall.
  - apply rtc_once, step_fetchData.
  - vm_compute. done.
  - vm_compute. done.
  - intros Hall. apply (bool_decide_pack _) in Hall. vm_compute in Hall.
    exact Hall.
Qed.

(** * Further properties of the code *)

(** ** Navigation *)

Lemma noStutter_prefix (l k : list ViewState) :
  noStutter (l ++ k) → noStutter l.
Proof.
  intros Hlk i a b Ha Hb. apply (Hlk i a b); by apply lookup_app_l_Some.
Qed.

Lemma noStutter_snoc (l : list ViewState) (a b : ViewState) :
  noStutter (l ++ [a]) → a ≠ b → noStutter ((l ++ [a]) ++ [b]).
Proof.
  intros Hl Hab i x y Hx Hy.
  apply lookup_snoc_Some in Hy as [[Hlt Hy] | [Hlen <-]].
  - apply (Hl i x y); [|done].
    rewrite lookup_app_l in Hx; [done | lia].
  - rewrite lookup_app_l in Hx by lia.
    rewrite length_app in Hlen. simpl in Hlen.
    assert (i = length l) as -> by lia.
    rewrite lookup_app_r, Nat.sub_diag in Hx by lia.
    simpl in Hx. congruence.
Qed.

Lemma noStutter_last (h : list ViewState) (v c : ViewState) :
  noStutter (h ++ [c]) → last h = Some v → v ≠ c.
Proof.
  intros Hh Hlast. apply last_Some in Hlast as [h' ->].
  apply (Hh (length h') v c).
  - rewrite <- app_assoc, lookup_app_r, Nat.sub_diag by lia. done.
  - rewrite <- app_assoc, lookup_app_r by lia.
    by replace (S (length h') - length h')%nat with 1%nat by lia.
Qed.

Lemma trail_navigateBack st :
  trail (navigateBack st) = viewHistory st
  ∨ viewHistory st = [] ∧ trail (navigateBack st) = [DASHBOARD].
Proof.
  unfold navigateBack, trail. case_bool_decide as Hlen.
  - right. apply length_zero_iff_nil in Hlen. split; [done|].
    simpl. by rewrite Hlen.
  - left. destruct (last (viewHistory st)) as [v|] eqn:Hlast; simpl.
    + apply last_Some in Hlast as [h' Hh]. rewrite Hh.
      by rewrite removelast_last.
    + apply last_None in Hlast. by rewrite Hlast in Hlen.
Qed.

(** X1. Going to another view and then back restores the state: the view
    and the history are what they were. *)
Theorem changeView_navigateBack st newView :
  newView ≠ currentView st →
  navigateBack (changeView st newView) = st.
Proof.
  intros Hne. unfold changeView. rewrite bool_decide_eq_false_2 by done.
  unfold navigateBack. simpl.
  rewrite bool_decide_eq_false_2 by (rewrite length_app; simpl; lia).
  rewrite last_snoc, removelast_last. by destruct st.
Qed.

Lemma changeView_navigateBack_witness :
  navigateBack (changeView initialState POLLS) = initialState.
Proof. apply (changeView_navigateBack initialState POLLS). discriminate. Defined.

Section Navigation.
Context `{Host}.

Lemma navStep_noStutter st st' :
  navStep st st' → noStutter (trail st) → noStutter (trail st').
Proof.
  intros Hstep Hst. destruct Hstep as [st newView | st | st email password | st].
  - unfold changeView. case_bool_decide as Heq; [done|].
    unfold trail; simpl. apply noStutter_snoc; [done | congruence].
  - destruct (trail_navigateBack st) as [-> | [_ ->]].
    + by apply (noStutter_prefix _ [currentView st]).
    + intros [|i] a b Ha Hb; simpl in *; done.
  - unfold handleLogin. destruct (List.find _ (users st)); [|done].
    intros [|i] a b Ha Hb; simpl in *; done.
  - intros [|i] a b Ha Hb; simpl in *; done.
Qed.

End Navigation.

(** X2. Through any sequence of [changeView], [navigateBack], logins and
    logouts no view is recorded twice in a row (history followed by the
    current view), and therefore [navigateBack] changes the current view
    unless the history is empty and the view already is the dashboard. *)
Theorem navigateBack_changes_view `{Host} st st' :
  noStutter (trail st) →
  rtc navStep st st' →
  noStutter (trail st')
  ∧ (currentView (navigateBack st') = currentView st' →
     viewHistory st' = [] ∧ currentView st' = DASHBOARD).
Proof.
  intros Hst Hsteps.
  assert (noStutter (trail st')) as Hst'.
  { induction Hsteps as [st | st mid st' Hstep _ IH]; [done|].
    apply IH. by apply (navStep_noStutter st). }
  split; [done|]. unfold navigateBack. case_bool_decide as Hlen.
  - apply length_zero_iff_nil in Hlen. simpl. intros Heq.
    split; [done | by symmetry].
  - destruct (last (viewHistory st')) as [v|] eqn:Hlast; simpl.
    + intros Hv. by destruct (noStutter_last _ v _ Hst' Hlast).
    + apply last_None in Hlast. by rewrite Hlast in Hlen.
Qed.

Lemma navigateBack_changes_view_witness :
  let st' := changeView (changeView initialState POLLS) DS in
  noStutter (trail st')
  ∧ (currentView (navigateBack st') = currentView st' →
     viewHistory st' = [] ∧ currentView st' = DASHBOARD).
Proof.
  intros st'.
  apply (navigateBack_changes_view (H := Sample.host) initialState st').
  - intros [|i] a b Ha Hb; simpl in *; done.
  - apply (rtc_l _ _ (changeView initialState POLLS));
      [apply nav_changeView|].
    apply rtc_once, nav_changeView.
Defined.

(** ** Update and delete mutations *)

Lemma replace_keeps_ids {A} (id : A → string) (updated : A) (l : list A) :
  id <$> ((λ x, if bool_decide (id x = id updated) then updated else x) <$> l)
  = id <$> l.
Proof.
  rewrite <- list_fmap_compose. apply list_fmap_ext.
  intros i x _. simpl. by case_bool_decide.
Qed.

Lemma replace_unknown_id {A} (id : A → string) (updated : A) (l : list A) :
  (∀ x, x ∈ l → id x ≠ id updated) →
  (λ x, if bool_decide (id x = id updated) then updated else x) <$> l = l.
Proof.
  intros Hnone. rewrite <- (list_fmap_id l) at 2.
  apply list_fmap_ext. intros i x Hx. simpl.
  apply list_elem_of_lookup_2 in Hx.
  by rewrite bool_decide_eq_false_2 by by apply Hnone.
Qed.

Lemma find_exists {A} (f : A → bool) (l : list A) (x : A) :
  x ∈ l → f x = true → ∃ y, List.find f l = Some y.
Proof.
  intros Hx Hfx. destruct (List.find f l) as [y|] eqn:Hfind; [by exists y|].
  apply (proj1 (find_none_iff f l)) with (x := x) in Hfind; [|done].
  congruence.
Qed.

Lemma filter_cons_new {A} (id : A → string) (newId : string) (x : A)
    (l : list A) :
  id x = newId → newId ∉ id <$> l →
  filter (λ a, id a ≠ newId) (x :: l) = l.
Proof.
  intros Hx Hl. rewrite filter_cons_False by tauto.
  by apply filter_unused_id.
Qed.

Lemma filter_snoc_new {A} (id : A → string) (newId : string) (x : A)
    (l : list A) :
  id x = newId → newId ∉ id <$> l →
  filter (λ a, id a ≠ newId) (l ++ [x]) = l.
Proof.
  intros Hx Hl. rewrite filter_app, (filter_unused_id id) by done.
  rewrite filter_cons_False by tauto. by rewrite filter_nil, app_nil_r.
Qed.

(** X3. A failed update or delete ends in exactly the state it started
    from, whatever the ids in the collection are: the snapshot taken before
    the optimistic change is put back. *)
Theorem failed_update_delete_restores st id e p r u message :
  (deleteAnnouncement st id (RemoteError message)).1 = st
  ∧ (updateExam st e (RemoteError message)).1 = st
  ∧ (deleteExam st id (RemoteError message)).1 = st
  ∧ (updatePoll st p (RemoteError message)).1 = st
  ∧ (deletePoll st id (RemoteError message)).1 = st
  ∧ (updateResource st r (RemoteError message)).1 = st
  ∧ (deleteResource st id (RemoteError message)).1 = st
  ∧ (updateUser st u (RemoteError message)).1 = st
  ∧ (resetUserPassword st id (RemoteError message)).1 = st.
Proof. by destruct st. Qed.

(** X4. Creating an item and then deleting it by its id gives back the
    state from before the creation, when the id is not already in use in the
    collection; the same holds for a user added with [addUser]. *)
Theorem create_then_delete st a e p r u newId now db :
  newId ∉ ann_id <$> announcements st →
  newId ∉ exam_id <$> exams st →
  newId ∉ poll_id <$> polls st →
  newId ∉ res_id <$> resources st →
  user_id u ∉ user_id <$> users st →
  (deleteAnnouncement (addAnnouncement st a newId RemoteOk).1 newId RemoteOk).1
  = st
  ∧ (deleteExam (addExam st e newId RemoteOk).1 newId RemoteOk).1 = st
  ∧ (deletePoll (addPoll st p newId now RemoteOk).1 newId RemoteOk).1 = st
  ∧ (deleteResource (addResource st r newId now RemoteOk).1 newId RemoteOk).1
    = st
  ∧ (deleteUser (addUser st u RemoteOk).1 (user_id u) RemoteOk db).1 = st.
Proof.
  intros Ha He Hp Hr Hu.
  unfold addAnnouncement, addExam, addPoll, addResource, addUser,
    deleteAnnouncement, deleteExam, deletePoll, deleteResource, deleteUser.
  destruct st as [[cu|] view hist us anns exs pls ress load err sess];
    simpl in *;
    unfold setAnnouncements, setExams, setPolls, setResources, setUsers; simpl;
    repeat split; f_equal;
    first [ by apply (filter_cons_new ann_id)
          | by apply (filter_snoc_new exam_id)
          | by apply (filter_cons_new poll_id)
          | by apply (filter_cons_new res_id)
          | by apply (filter_snoc_new user_id)
          | by apply filter_unused_id ].
Qed.

Lemma create_then_delete_witness :
  let st := Sample.loggedIn (Some Sample.admin)
              [Sample.examAt "e-1" Sample.now None]
              [Sample.pollAt "p-1" Sample.now ∅] in
  let u := mkUser "u-new" "Codou" "codou@eco.com" "passer25" ELEVE None in
  (deleteAnnouncement
     (addAnnouncement st (Sample.announcement "") "id-1" RemoteOk).1
     "id-1" RemoteOk).1 = st
  ∧ (deleteExam (addExam st (Sample.examAt "" Sample.now None) "id-1"
                   RemoteOk).1 "id-1" RemoteOk).1 = st
  ∧ (deletePoll (addPoll st (Sample.pollAt "" 0 ∅) "id-1" Sample.now
                   RemoteOk).1 "id-1" RemoteOk).1 = st
  ∧ (deleteResource (addResource st (Sample.resource "") "id-1" Sample.now
                       RemoteOk).1 "id-1" RemoteOk).1 = st
  ∧ (deleteUser (addUser st u RemoteOk).1 (user_id u) RemoteOk
       Sample.emptyTables).1 = st.
Proof.
  intros st u.
  apply (create_then_delete st);
    apply (bool_decide_unpack _); vm_compute; exact I.
Defined.

(** X5. An update never adds, removes or reorders items: the ids of the
    collection, in order, are the same after [updateExam], [updatePoll],
    [updateResource] and [updateUser], whatever the store answers. *)
Theorem update_keeps_ids st e p r u res :
  exam_id <$> exams (updateExam st e res).1 = exam_id <$> exams st
  ∧ poll_id <$> polls (updatePoll st p res).1 = poll_id <$> polls st
  ∧ res_id <$> resources (updateResource st r res).1 = res_id <$> resources st
  ∧ user_id <$> users (updateUser st u res).1 = user_id <$> users st.
Proof.
  unfold updateExam, updatePoll, updateResource, updateUser.
  destruct res; simpl; split_and!; try done.
  - apply (replace_keeps_ids exam_id).
  - apply (replace_keeps_ids poll_id).
  - apply (replace_keeps_ids res_id).
  - apply (replace_keeps_ids user_id).
Qed.

(** X6. An update whose id matches no item of the collection changes
    nothing locally, and the remote update is issued all the same. *)
Theorem update_unknown_id st e p r u :
  (∀ x, x ∈ exams st → exam_id x ≠ exam_id e) →
  (∀ x, x ∈ polls st → poll_id x ≠ poll_id p) →
  (∀ x, x ∈ resources st → res_id x ≠ res_id r) →
  (∀ x, x ∈ users st → user_id x ≠ user_id u) →
  updateExam st e RemoteOk = (st, [UpdateExamRow e])
  ∧ updatePoll st p RemoteOk = (st, [UpdatePollRow p])
  ∧ updateResource st r RemoteOk = (st, [UpdateResourceRow r])
  ∧ updateUser st u RemoteOk = (st, [UpdateUserRow u]).
Proof.
  intros He Hp Hr Hu.
  unfold updateExam, updatePoll, updateResource, updateUser,
    setExams, setPolls, setResources, setUsers.
  rewrite (replace_unknown_id exam_id), (replace_unknown_id poll_id),
    (replace_unknown_id res_id), (replace_unknown_id user_id) by done.
  by destruct st.
Qed.

Lemma update_unknown_id_witness :
  let st := Sample.loggedIn (Some Sample.admin)
              [Sample.examAt "e-1" Sample.now None]
              [Sample.pollAt "p-1" Sample.now ∅] in
  let u := mkUser "u-new" "Codou" "codou@eco.com" "passer25" ELEVE None in
  updateExam st (Sample.examAt "e-9" Sample.now None) RemoteOk
  = (st, [UpdateExamRow (Sample.examAt "e-9" Sample.now None)])
  ∧ updatePoll st (Sample.pollAt "p-9" Sample.now ∅) RemoteOk
    = (st, [UpdatePollRow (Sample.pollAt "p-9" Sample.now ∅)])
  ∧ updateResource st (Sample.resource "r-9") RemoteOk
    = (st, [UpdateResourceRow (Sample.resource "r-9")])
  ∧ updateUser st u RemoteOk = (st, [UpdateUserRow u]).
Proof.
  intros st u.
  apply (update_unknown_id st);
    apply Forall_forall; subst st; simpl; repeat constructor; discriminate.
Defined.

(** X7. Once a poll has been deleted, a vote for its id changes nothing and
    issues no remote call. *)
Theorem votePoll_after_deletePoll st id optionId res db :
  votePoll (deletePoll st id RemoteOk).1 id optionId res db
  = ((deletePoll st id RemoteOk).1, []).
Proof.
  unfold votePoll. destruct (currentUser _) as [cu|]; [|done].
  assert (List.find (λ p, bool_decide (poll_id p = id))
            (polls (deletePoll st id RemoteOk).1) = None) as ->; [|done].
  apply find_none_iff. intros p Hp. simpl in Hp.
  apply list_elem_of_filter in Hp as [Hne _].
  by apply bool_decide_eq_false_2.
Qed.

(** X8. After a successful password reset of the user with a given id, a
    login with the email of that user and the password [passer25] succeeds,
    and the user logged in has that password and the same lower-cased
    email. *)
Theorem resetUserPassword_login `{Host} st id u :
  u ∈ users st →
  user_id u = id →
  let st' := (resetUserPassword st id RemoteOk).1 in
  let result := handleLogin st' (user_email u) "passer25" in
  result.1 = true
  ∧ ∃ v, currentUser result.2 = Some v
         ∧ user_password v = "passer25"
         ∧ toLowerCase (user_email v) = toLowerCase (user_email u).
Proof.
  intros Hu Hid st' result. subst result. unfold handleLogin.
  assert (withPassword "passer25" u ∈ users st') as Hin.
  { subst st'. simpl.
    apply list_elem_of_fmap. exists u. split; [|done].
    by rewrite bool_decide_eq_true_2. }
  destruct (find_exists (credentialsMatch (user_email u) "passer25")
              (users st') _ Hin) as [v Hv].
  { unfold credentialsMatch. simpl. by rewrite !bool_decide_eq_true_2. }
  rewrite Hv. simpl. split; [done|]. exists v.
  apply find_some_elem in Hv as [_ Hm].
  apply andb_true_iff in Hm as [He Hp].
  apply bool_decide_eq_true in He, Hp. done.
Qed.

Lemma resetUserPassword_login_witness :
  let st' := (resetUserPassword (Sample.loggedIn None [] []) "u-awa"
                RemoteOk).1 in
  let result := handleLogin (H := Sample.host) st' "Awa@Eco.com" "passer25" in
  result.1 = true
  ∧ ∃ v, currentUser result.2 = Some v
         ∧ user_password v = "passer25"
         ∧ Sample.lowerString (user_email v) = Sample.lowerString "Awa@Eco.com".
Proof.
  apply (resetUserPassword_login (H := Sample.host)
           (Sample.loggedIn None [] []) "u-awa" Sample.awa).
  - apply (bool_decide_unpack _). vm_compute. exact I.
  - reflexivity.
Defined.

(** X9. When the deletion of a user fails, the users are put back and the
    data is fetched again: the resulting state is the one a plain
    [fetchData] gives from the state before the attempt. *)
Theorem deleteUser_failure_resyncs st id message db :
  (deleteUser st id (RemoteError message) db).1 = (fetchData st db).1
  ∧ (deleteUser st id (RemoteError message) db).2
    = DeleteFrom "users" id :: (Refetch <$> (fetchData st db).2).
Proof.
  unfold deleteUser.
  assert (setUsers (users st)
            (setUsers (filter (λ u, user_id u ≠ id) (users st)) st) = st)
    as -> by by destruct st.
  by destruct (fetchData st db).
Qed.

(** ** Bulk load *)

Lemma restoreSession_frame us st :
  users (restoreSession us st) = users st
  ∧ announcements (restoreSession us st) = announcements st
  ∧ exams (restoreSession us st) = exams st
  ∧ resources (restoreSession us st) = resources st
  ∧ isLoading (restoreSession us st) = isLoading st
  ∧ dbError (restoreSession us st) = dbError st.
Proof.
  unfold restoreSession. destruct (session st); [|done].
  by destruct (List.find _ us).
Qed.

(** The users kept by [fetchData] when the select succeeds. *)
Lemma fetchData_users st db userData :
  users_table db = FetchRows userData →
  users (fetchData st db).1
  = match userData, admin_insert db with
    | [], RemoteOk => [DEFAULT_ADMIN]
    | [], RemoteError _ => []
    | _, _ => userData
    end.
Proof.
  intros Hu. unfold fetchData. rewrite Hu.
  destruct userData as [|u0 us]; [destruct (admin_insert db)|];
    destruct (announcements_table db); simpl;
    rewrite ?(proj1 (restoreSession_frame _ _)); try done;
    destruct (exams_table db); simpl;
    rewrite ?(proj1 (restoreSession_frame _ _)); try done;
    destruct (polls_table db); simpl;
    rewrite ?(proj1 (restoreSession_frame _ _)); try done;
    destruct (resources_table db); simpl;
    by rewrite ?(proj1 (restoreSession_frame _ _)).
Qed.

(** X10. [fetchData] always ends with the loader off, and it reports a
    database error exactly when one of the selects of users, announcements,
    exams or polls fails; a failure of the resources select is never
    reported. *)
Theorem fetchData_reports_errors st db :
  let st' := (fetchData st db).1 in
  isLoading st' = false
  ∧ (dbError st' = None
     ↔ (∃ us, users_table db = FetchRows us)
       ∧ (∃ anns, announcements_table db = FetchRows anns)
       ∧ (∃ exs, exams_table db = FetchRows exs)
       ∧ (∃ rows, polls_table db = FetchRows rows))
  ∧ (dbError st' = None ∨ dbError st' = Some DB_ERROR).
Proof.
  unfold fetchData.
  destruct (users_table db) as [|userData]; simpl.
  { split_and!; [done | | by right]. split; [done | by intros [[? ?] _]]. }
  destruct (match userData with [] => _ | _ => _ end) as [mappedUsers c1].
  destruct (announcements_table db) as [|annData]; simpl.
  { split_and!; [done | | by right].
    split; [done | by intros (_ & [? ?] & _)]. }
  destruct (exams_table db) as [|examData]; simpl.
  { split_and!; [done | | by right].
    split; [done | by intros (_ & _ & [? ?] & _)]. }
  destruct (polls_table db) as [|pollData]; simpl.
  { split_and!; [done | | by right].
    split; [done | by intros (_ & _ & _ & [? ?])]. }
  assert (dbError
            (match resources_table db with
             | Some resData =>
                 setResources (λ _, resData)
                   (setPolls (λ _, loadPoll <$> pollData)
                      (setExams (λ _, examData)
                         (setAnnouncements (λ _, annData)
                            (restoreSession mappedUsers
                               (setUsers mappedUsers (setDbError None st))))))
             | None =>
                 setPolls (λ _, loadPoll <$> pollData)
                   (setExams (λ _, examData)
                      (setAnnouncements (λ _, annData)
                         (restoreSession mappedUsers
                            (setUsers mappedUsers (setDbError None st)))))
             end) = None) as Herr.
  { destruct (resources_table db); simpl;
      by rewrite (proj2 (proj2 (proj2 (proj2 (proj2
                   (restoreSession_frame _ _)))))). }
  split_and!; [done | | by left].
  split; [eauto 10|]. intros _. exact Herr.
Qed.

(** X11. The load is not atomic.  After [fetchData] each collection holds
    the fetched rows if its own select and the selects before it succeeded,
    and what it held before otherwise; the resources are replaced only if
    all the selects succeed. *)
Theorem fetchData_collections st db :
  let st' := (fetchData st db).1 in
  announcements st'
  = match users_table db, announcements_table db with
    | FetchRows _, FetchRows annData => annData
    | _, _ => announcements st
    end
  ∧ exams st'
    = match users_table db, announcements_table db, exams_table db with
      | FetchRows _, FetchRows _, FetchRows examData => examData
      | _, _, _ => exams st
      end
  ∧ polls st'
    = match users_table db, announcements_table db, exams_table db,
            polls_table db with
      | FetchRows _, FetchRows _, FetchRows _, FetchRows pollData =>
          loadPoll <$> pollData
      | _, _, _, _ => polls st
      end
  ∧ resources st'
    = match users_table db, announcements_table db, exams_table db,
            polls_table db, resources_table db with
      | FetchRows _, FetchRows _, FetchRows _, FetchRows _, Some resData =>
          resData
      | _, _, _, _, _ => resources st
      end.
Proof.
  unfold fetchData.
  destruct (users_table db) as [|userData]; simpl; [done|].
  destruct (match userData with [] => _ | _ => _ end) as [mappedUsers c1].
  pose proof (restoreSession_frame mappedUsers
                (setUsers mappedUsers (setDbError None st)))
    as (_ & Hanns & Hexs & Hress & _).
  pose proof (restoreSession_polls mappedUsers
                (setUsers mappedUsers (setDbError None st))) as Hpolls.
  simpl in *.
  destruct (announcements_table db) as [|annData]; simpl; [done|].
  destruct (exams_table db) as [|examData]; simpl; [done|].
  destruct (polls_table db) as [|pollData]; simpl; [done|].
  by destruct (resources_table db).
Qed.

(** X12. First start on an empty users table: if the default administrator
    can be inserted it is the only user, and a login with its credentials
    succeeds and makes it the current user; if the insert fails there is no
    user and every login fails. *)
Theorem fetchData_bootstraps_admin `{Host} st db :
  users_table db = FetchRows [] →
  let st' := (fetchData st db).1 in
  (admin_insert db = RemoteOk →
     users st' = [DEFAULT_ADMIN]
     ∧ (handleLogin st' "faye@eco.com" "passer25").1 = true
     ∧ currentUser (handleLogin st' "faye@eco.com" "passer25").2
       = Some DEFAULT_ADMIN)
  ∧ (∀ message email password,
       admin_insert db = RemoteError message →
       users st' = [] ∧ (handleLogin st' email password).1 = false).
Proof.
  intros Hu st'. subst st'. split.
  - intros Hok. unfold handleLogin.
    rewrite (fetchData_users st db [] Hu), Hok. simpl.
    unfold credentialsMatch; simpl. rewrite !bool_decide_eq_true_2 by done.
    done.
  - intros message email password Herr. unfold handleLogin.
    rewrite (fetchData_users st db [] Hu), Herr. done.
Qed.

Lemma fetchData_bootstraps_admin_witness :
  let db := mkTables (FetchRows []) RemoteOk (FetchRows []) (FetchRows [])
                     (FetchRows []) None in
  let st' := (fetchData initialState db).1 in
  users st' = [DEFAULT_ADMIN]
  ∧ (handleLogin (H := Sample.host) st' "faye@eco.com" "passer25").1 = true
  ∧ currentUser (handleLogin (H := Sample.host) st' "faye@eco.com"
                   "passer25").2 = Some DEFAULT_ADMIN.
Proof.
  intros db.
  exact (proj1 (fetchData_bootstraps_admin (H := Sample.host) initialState db
                  eq_refl) eq_refl).
Defined.

Lemma fetchData_session st db mappedUsers :
  users (fetchData st db).1 = mappedUsers →
  (∃ us, users_table db = FetchRows us) →
  session (fetchData st db).1
  = session (restoreSession mappedUsers st)
  ∧ currentUser (fetchData st db).1
    = currentUser (restoreSession mappedUsers st).
Proof.
  intros Husers [us Hus]. revert Husers.
  rewrite (fetchData_users st db us Hus). intros <-.
  unfold fetchData. rewrite Hus.
  destruct (match us with [] => _ | _ => _ end) as [mappedUsers c1] eqn:Hm.
  assert (mappedUsers
          = match us, admin_insert db with
            | [], RemoteOk => [DEFAULT_ADMIN]
            | [], RemoteError _ => []
            | _, _ => us
            end) as <-.
  { destruct us; [destruct (admin_insert db)|]; by inversion Hm. }
  assert (session (restoreSession mappedUsers
                     (setUsers mappedUsers (setDbError None st)))
          = session (restoreSession mappedUsers st)
          ∧ currentUser (restoreSession mappedUsers
                           (setUsers mappedUsers (setDbError None st)))
            = currentUser (restoreSession mappedUsers st)) as [Hs Hc].
  { unfold restoreSession; simpl. destruct (session st); [|done].
    by destruct (List.find _ mappedUsers). }
  destruct (announcements_table db); simpl; [done|].
  destruct (exams_table db); simpl; [done|].
  destruct (polls_table db); simpl; [done|].
  by destruct (resources_table db).
Qed.

(** X13. Session restoration.  When the users are fetched and a session is
    stored, the session is honoured exactly when a loaded user has the id of
    the stored one: the current user becomes the first loaded record with
    that id (the fetched data, not the stored copy).  Otherwise the stored
    session is removed, and the current user is left as it was. *)
Theorem fetchData_restores_session st db us s :
  users_table db = FetchRows us →
  session st = Some s →
  let st' := (fetchData st db).1 in
  match List.find (λ u, bool_decide (user_id u = user_id s)) (users st') with
  | Some validUser =>
      currentUser st' = Some validUser ∧ session st' = Some s
  | None => session st' = None ∧ currentUser st' = currentUser st
  end.
Proof.
  intros Hus Hs st'. subst st'.
  destruct (fetchData_session st db (users (fetchData st db).1) eq_refl)
    as [Hsess Hcur]; [by exists us|].
  rewrite Hsess, Hcur. unfold restoreSession. rewrite Hs.
  by destruct (List.find _ (users (fetchData st db).1)).
Qed.

Lemma fetchData_restores_session_witness :
  let stored := mkUser "u-awa" "Awa (old)" "awa@old.com" "old" ELEVE None in
  let st := setSession (Some stored) initialState in
  let st' := (fetchData st Sample.emptyTables).1 in
  currentUser st' = Some Sample.awa ∧ session st' = Some stored.
Proof.
  intros stored st.
  pose proof (fetchData_restores_session st Sample.emptyTables
                [Sample.awa; Sample.binta; Sample.admin] stored eq_refl
                eq_refl) as Hrestored.
  vm_compute in Hrestored. vm_compute. exact Hrestored.
Defined.

Lemma restoreSession_again us st :
  restoreSession us (restoreSession us st) = restoreSession us st.
Proof.
  unfold restoreSession.
  destruct (session st) as [s|] eqn:Hs; [|by rewrite Hs].
  destruct (List.find _ us) as [v|] eqn:Hfind; simpl.
  - rewrite Hs, Hfind. by destruct st.
  - done.
Qed.

Ltac settle_reload mappedUsers :=
  simpl; f_equal; unfold restoreSession; simpl;
  match goal with
  | st : AppState |- _ =>
      destruct st as [cu view hist us anns exs pls ress load err [s|]]
  end; simpl; try done;
  destruct (List.find _ mappedUsers) as [v|] eqn:Hfind; simpl;
  by rewrite ?Hfind.

(** X14. Reloading twice is reloading once: as long as the store gives the
    same answers, a second [fetchData] issues the same calls and leaves the
    state produced by the first one unchanged. *)
Theorem fetchData_idempotent st db :
  fetchData (fetchData st db).1 db = fetchData st db.
Proof.
  unfold fetchData.
  destruct (users_table db) as [|userData] eqn:Hu; simpl.
  { rewrite ?Hu. by destruct st. }
  destruct (match userData with [] => _ | _ => _ end)
    as [mappedUsers c1] eqn:Hm.
  destruct (announcements_table db) as [|annData] eqn:Ha; simpl.
  { rewrite ?Hu, ?Hm, ?Ha. settle_reload mappedUsers. }
  destruct (exams_table db) as [|examData] eqn:He; simpl.
  { rewrite ?Hu, ?Hm, ?Ha, ?He. settle_reload mappedUsers. }
  destruct (polls_table db) as [|pollData] eqn:Hp; simpl.
  { rewrite ?Hu, ?Hm, ?Ha, ?He, ?Hp. settle_reload mappedUsers. }
  rewrite ?Hu, ?Hm, ?Ha, ?He, ?Hp.
  destruct (resources_table db) as [resData|]; settle_reload mappedUsers.
Qed.

(** ** Sorting; the dashboard and the schedule *)

Section StableSort.
Context {A : Type} (key : A → Z) (before : A → A → bool).
Hypothesis before_key : ∀ a b, before a b = (key a <=? key b).

Lemma insertSorted_perm x l : insertSorted before x l ≡ₚ x :: l.
Proof.
  induction l as [|y r IH]; simpl; [done|].
  destruct (before x y); [done|]. rewrite IH. apply Permutation_swap.
Qed.

Lemma stableSort_perm l : stableSort before l ≡ₚ l.
Proof.
  induction l as [|x l IH]; simpl; [done|].
  by rewrite insertSorted_perm, IH.
Qed.

Lemma insertSorted_sorted x l :
  StronglySorted (λ a b, key a ≤ key b) l →
  StronglySorted (λ a b, key a ≤ key b) (insertSorted before x l).
Proof.
  induction 1 as [|y r Hr IH Hy]; simpl.
  - repeat constructor.
  - rewrite before_key. destruct (Z.leb_spec (key x) (key y)) as [Hle|Hlt].
    + constructor; [by constructor|].
      constructor; [done|].
      eapply Forall_impl; [exact Hy|]. intros z Hz. simpl in Hz. lia.
    + constructor; [done|].
      rewrite insertSorted_perm. constructor; [lia | done].
Qed.

Lemma stableSort_sorted l :
  StronglySorted (λ a b, key a ≤ key b) (stableSort before l).
Proof.
  induction l as [|x l IH]; simpl; [constructor|].
  by apply insertSorted_sorted.
Qed.

(** The first element of the sorted list: a member with the least key. *)
Lemma stableSort_head l m :
  head (stableSort before l) = Some m →
  m ∈ l ∧ ∀ y, y ∈ l → key m ≤ key y.
Proof.
  intros Hhead. apply head_Some in Hhead as [r Hr].
  pose proof (stableSort_sorted l) as Hsorted.
  pose proof (stableSort_perm l) as Hperm.
  rewrite Hr in Hsorted, Hperm.
  apply StronglySorted_inv in Hsorted as [_ Hm].
  split.
  - rewrite <- Hperm. left.
  - intros y Hy. rewrite <- Hperm in Hy.
    apply elem_of_cons in Hy as [-> | Hy]; [lia|].
    by apply (proj1 (Forall_forall _ _) Hm).
Qed.

Lemma stableSort_head_None l : head (stableSort before l) = None ↔ l = [].
Proof.
  split.
  - intros Hhead. apply head_None in Hhead.
    pose proof (stableSort_perm l) as Hperm. rewrite Hhead in Hperm.
    by apply Permutation_nil_l in Hperm.
  - by intros ->.
Qed.

End StableSort.

Lemma announcementLater_key a b :
  announcementLater a b = (- ann_date a <=? - ann_date b).
Proof.
  unfold announcementLater.
  destruct (Z.leb_spec (ann_date b) (ann_date a)),
    (Z.leb_spec (- ann_date a) (- ann_date b)); lia || done.
Qed.

(** X15. The exam schedule lists the exams it is given, each once, by
    non-decreasing date. *)
Theorem sortedExams_spec (exams : list Exam) :
  sortedExams exams ≡ₚ exams
  ∧ StronglySorted (λ a b, exam_date a ≤ exam_date b) (sortedExams exams).
Proof.
  split.
  - apply stableSort_perm.
  - by apply (stableSort_sorted exam_date).
Qed.

(** X16. The "upcoming exam" of the dashboard is a visible exam dated
    [now] or later with the earliest date among those; there is none
    exactly when every visible exam is dated before [now]. *)
Theorem upcomingExam_spec st now :
  (∀ e, upcomingExam st now = Some e →
        e ∈ filteredExams st ∧ now ≤ exam_date e
        ∧ ∀ e', e' ∈ filteredExams st → now ≤ exam_date e' →
                exam_date e ≤ exam_date e')
  ∧ (upcomingExam st now = None
     ↔ ∀ e, e ∈ filteredExams st → exam_date e < now).
Proof.
  unfold upcomingExam. split.
  - intros e He.
    apply (stableSort_head exam_date) in He as [Hin Hmin]; [|done].
    apply list_elem_of_filter in Hin as [Hnow Hin].
    split_and!; [done | done |].
    intros e' He' Hnow'. apply Hmin. by apply list_elem_of_filter.
  - rewrite stableSort_head_None. split.
    + intros Hnil e He.
      destruct (Z_lt_le_dec (exam_date e) now) as [|Hle]; [done|].
      assert (e ∈ filter (λ e, now ≤ exam_date e) (filteredExams st)) as Hin
        by by apply list_elem_of_filter.
      rewrite Hnil in Hin. by apply elem_of_nil in Hin.
    + intros Hall.
      destruct (filter _ (filteredExams st)) as [|e l] eqn:Hf; [done|].
      assert (e ∈ filter (λ e, now ≤ exam_date e) (filteredExams st)) as Hin
        by (rewrite Hf; left).
      apply list_elem_of_filter in Hin as [Hnow Hin].
      specialize (Hall e Hin). lia.
Qed.

(** X17. The "latest announcement" of the dashboard is a visible
    announcement with the latest date; there is none exactly when no
    announcement is visible. *)
Theorem latestAnnouncement_spec st :
  (∀ a, latestAnnouncement st = Some a →
        a ∈ filteredAnnouncements st
        ∧ ∀ a', a' ∈ filteredAnnouncements st → ann_date a' ≤ ann_date a)
  ∧ (latestAnnouncement st = None ↔ filteredAnnouncements st = []).
Proof.
  unfold latestAnnouncement. split.
  - intros a Ha.
    apply (stableSort_head (λ a, - ann_date a)) in Ha as [Hin Hmax];
      [|apply announcementLater_key].
    split; [done|]. intros a' Ha'. specialize (Hmax a' Ha'). lia.
  - apply stableSort_head_None.
Qed.

(** X18. The counter of upcoming exams and the upcoming exam shown are
    computed from the same visible exams, each at the instant of its own
    computation.  A zero counter at one instant means that no upcoming exam
    is found at that instant or any later one, and no upcoming exam at one
    instant means a zero counter at that instant or any later one. *)
Theorem stats_upcomingExam st earlier later :
  earlier ≤ later →
  (stat_exams (stats st earlier) = 0%nat → upcomingExam st later = None)
  ∧ (upcomingExam st earlier = None → stat_exams (stats st later) = 0%nat).
Proof.
  intros Hle. unfold stats, upcomingExam; simpl.
  rewrite !stableSort_head_None, !length_zero_iff_nil.
  assert (∀ a b, a ≤ b →
            filter (λ e, a ≤ exam_date e) (filteredExams st) = [] →
            filter (λ e, b ≤ exam_date e) (filteredExams st) = []) as Hmono.
  { intros a b Hab Ha.
    destruct (filter (λ e, b ≤ exam_date e) (filteredExams st))
      as [|e l] eqn:Hb; [done|].
    assert (e ∈ filter (λ e, b ≤ exam_date e) (filteredExams st)) as He
      by (rewrite Hb; left).
    apply list_elem_of_filter in He as [Hdate He].
    assert (e ∈ filter (λ e, a ≤ exam_date e) (filteredExams st)) as He'
      by (apply list_elem_of_filter; split; [lia | done]).
    rewrite Ha in He'. by apply elem_of_nil in He'. }
  split; by apply Hmono.
Qed.

Lemma stats_upcomingExam_witness :
  let st := Sample.loggedIn (Some Sample.awa)
              [Sample.examAt "e-1" (Sample.now + MS_PER_HOUR) None] [] in
  (stat_exams (stats st (Sample.now + MS_PER_DAY)) = 0%nat →
   upcomingExam st (Sample.now + 2 * MS_PER_DAY) = None)
  ∧ (upcomingExam st (Sample.now + MS_PER_DAY) = None →
     stat_exams (stats st (Sample.now + 2 * MS_PER_DAY)) = 0%nat).
Proof.
  intros st.
  apply (stats_upcomingExam st (Sample.now + MS_PER_DAY)
           (Sample.now + 2 * MS_PER_DAY)).
  unfold Sample.now, MS_PER_DAY. lia.
Defined.

(** The two values can disagree when computed at different instants: with
    an exam one hour ahead, the upcoming exam found now is still defined
    when the counter computed a day later is zero. *)
Example stats_after_upcomingExam :
  let e := Sample.examAt "e-1" (Sample.now + MS_PER_HOUR) None in
  let st := Sample.loggedIn (Some Sample.awa) [e] [] in
  upcomingExam st Sample.now = Some e
  ∧ stat_exams (stats st (Sample.now + MS_PER_DAY)) = 0%nat.
Proof. vm_compute. done. Qed.

(** ** More on the notification feed *)

Lemma insertByTimestamp_sorted n l :
  StronglySorted (λ a b, notif_timestamp b ≤ notif_timestamp a) l →
  StronglySorted (λ a b, notif_timestamp b ≤ notif_timestamp a)
                 (insertByTimestamp n l).
Proof.
  induction 1 as [|m r Hr IH Hm]; simpl.
  - repeat constructor.
  - destruct (Z.leb_spec (notif_timestamp m) (notif_timestamp n)) as [Hle|Hlt].
    + constructor; [by constructor|].
      constructor; [done|].
      eapply Forall_impl; [exact Hm|]. intros z Hz. simpl in Hz. lia.
    + constructor; [done|].
      rewrite insertByTimestamp_perm. constructor; [lia | done].
Qed.

Lemma accessFilter_subset {A} (target : A → option string) cu (l : list A) x :
  x ∈ accessFilter target cu l → x ∈ l.
Proof.
  unfold accessFilter. destruct cu as [u|]; [|done].
  destruct (unrestricted u); [done|].
  intros Hx. by apply list_elem_of_filter in Hx as [_ Hx].
Qed.

(** X19. The feed is ordered by decreasing timestamp, whatever the state,
    and it is empty when nobody is logged in. *)
Theorem notifications_sorted `{Host} st now :
  StronglySorted (λ a b, notif_timestamp b ≤ notif_timestamp a)
                 (notifications st now)
  ∧ (currentUser st = None → notifications st now = []).
Proof.
  unfold notifications. destruct (currentUser st) as [cu|]; split;
    try done; try constructor.
  unfold sortByTimestamp.
  induction (_ ++ _) as [|n l IH]; simpl; [constructor|].
  by apply insertByTimestamp_sorted.
Qed.

(** X20. For a logged-in user, the info items of the feed are, one for
    one, the visible announcements whose age in whole hours, rounded toward
    zero, lies between 0 and 48 (dated strictly less than 49 hours before
    [now] and strictly less than one hour after it); the title of the item
    starts with [URGENT: ] for an urgent announcement and with [Annonce: ]
    otherwise. *)
Theorem announcement_infos_spec `{Host} st cu now :
  currentUser st = Some cu →
  filter (λ n, notif_type n = info) (notifications st now)
    ≡ₚ announcementInfo
         <$> filter (λ a, announcementRecent now a = true)
                    (filteredAnnouncements st)
  ∧ (∀ a, announcementRecent now a = true
          ↔ - MS_PER_HOUR < now - ann_date a < 49 * MS_PER_HOUR)
  ∧ (∀ a, notif_title (announcementInfo a)
          = (if ann_isUrgent a then "URGENT: " else "Annonce: ")
            +:+ ann_title a).
Proof.
  intros Hcu. split_and!.
  - rewrite (notifications_perm st cu now Hcu), !filter_app.
    rewrite (filter_type_none info examAlert) by done.
    rewrite (filter_type_all info announcementInfo) by done.
    rewrite (filter_type_none info pollSuccess) by done.
    by rewrite app_nil_r.
  - intros a. unfold announcementRecent, differenceInHours.
    by rewrite quot_window.
  - intros a. simpl. by destruct (ann_isUrgent a).
Qed.

Lemma announcement_infos_spec_witness :
  let st := Sample.loggedIn (Some Sample.awa) [] [] in
  filter (λ n, notif_type n = info)
         (notifications (H := Sample.host) st Sample.now)
  ≡ₚ announcementInfo
       <$> filter (λ a, announcementRecent Sample.now a = true)
                  (filteredAnnouncements st).
Proof.
  intros st.
  exact (proj1 (announcement_infos_spec (H := Sample.host) st Sample.awa
                  Sample.now eq_refl)).
Defined.

(** X21. The schedule computes its imminent flag at each of its renders,
    the feed is computed when its inputs change.  An exam that the user can
    see and that the schedule flags as imminent (zero to three full days
    away) at the instant of a render has its alert in a feed computed from
    the same state at an instant whose wall-clock reading is at most four
    days before that of the render, when the readings that
    [differenceInDays] goes through exist at both instants. *)
Theorem urgent_exam_has_alert `{Host} st cu feedTime renderTime e :
  currentUser st = Some cu →
  e ∈ filteredExams st →
  readingsExist (exam_date e) feedTime →
  readingsExist (exam_date e) renderTime →
  0 ≤ localTime renderTime - localTime feedTime ≤ 4 * MS_PER_DAY →
  examUrgent renderTime e = true →
  examAlert e ∈ notifications st feedTime.
Proof.
  intros Hcu He Hfeed Hrender Hstale Hurgent.
  rewrite (notifications_perm st cu feedTime Hcu).
  apply elem_of_app. left. apply list_elem_of_fmap_2.
  apply list_elem_of_filter. split; [|done].
  apply (examUrgent_readings renderTime e Hrender) in Hurgent.
  apply (examDue_readings feedTime e Hfeed).
  unfold MS_PER_DAY in *. lia.
Qed.

Lemma urgent_exam_has_alert_witness :
  let e := Sample.examAt "e-1" (Sample.now + 2 * MS_PER_DAY) None in
  let st := Sample.loggedIn (Some Sample.awa) [e] [] in
  examAlert (H := Sample.host) e
  ∈ notifications (H := Sample.host) st (Sample.now - 3 * MS_PER_DAY).
Proof.
  intros e st.
  apply (urgent_exam_has_alert (H := Sample.host) st Sample.awa
           (Sample.now - 3 * MS_PER_DAY) Sample.now e).
  - reflexivity.
  - vm_compute. left.
  - vm_compute. done.
  - vm_compute. done.
  - vm_compute. split; discriminate.
  - vm_compute. reflexivity.
Defined.

(** After a vote that is not a repeat, every cached poll with the id voted
    in records the chosen option for the user. *)
Lemma votePoll_recorded st cu pollId optionId db P :
  currentUser st = Some cu →
  List.find (λ p, bool_decide (poll_id p = pollId)) (polls st) = Some P →
  poll_userVotes P !! user_id cu ≠ Some optionId →
  let st' := (votePoll st pollId optionId RemoteOk db).1 in
  currentUser st' = Some cu
  ∧ ∀ p, p ∈ polls st' → poll_id p = pollId →
         poll_userVotes p !! user_id cu = Some optionId.
Proof.
  intros Hcu Hfind Hne st'. subst st'. unfold votePoll.
  rewrite Hcu, Hfind, bool_decide_eq_false_2 by done. simpl.
  split; [done|]. intros p Hp Hid.
  apply list_elem_of_fmap in Hp as (q & -> & Hq).
  case_bool_decide as Hq'; [apply lookup_insert_eq | done].
Qed.

(** X22. Voting dismisses the notification: after a vote for a non-empty
    option that is not a repeat of the user's current choice, the feed holds
    no success item for the poll voted in. *)
Theorem vote_dismisses_notification `{Host} st cu pollId optionId db P now :
  currentUser st = Some cu →
  List.find (λ p, bool_decide (poll_id p = pollId)) (polls st) = Some P →
  poll_userVotes P !! user_id cu ≠ Some optionId →
  optionId ≠ "" →
  let st' := (votePoll st pollId optionId RemoteOk db).1 in
  Forall (λ n, notif_type n = success → notif_id n ≠ "poll-" +:+ pollId)
         (notifications st' now).
Proof.
  intros Hcu Hfind Hne Hopt st'. apply Forall_forall. intros n Hn Htype Hid.
  destruct (votePoll_recorded st cu pollId optionId db P Hcu Hfind Hne)
    as [Hcu' Hrec]. fold st' in Hcu', Hrec.
  rewrite (notifications_perm st' cu now Hcu') in Hn.
  apply elem_of_app in Hn as [Hn | Hn];
    [apply list_elem_of_fmap in Hn as (e & -> & _); done|].
  apply elem_of_app in Hn as [Hn | Hn];
    [apply list_elem_of_fmap in Hn as (a & -> & _); done|].
  apply list_elem_of_fmap in Hn as (p & -> & Hp).
  apply list_elem_of_filter in Hp as [Hawaits Hp].
  apply accessFilter_subset in Hp.
  simpl in Hid. apply (inj (String.app "poll-")) in Hid.
  apply pollAwaitsVote_iff in Hawaits as [_ Hledger].
  rewrite (Hrec p Hp Hid) in Hledger.
  destruct Hledger as [?|?]; congruence.
Qed.

Lemma vote_dismisses_notification_witness :
  let P := Sample.pollAt "p-1" (Sample.now - MS_PER_HOUR) ∅ in
  let st := Sample.loggedIn (Some Sample.awa) [] [P] in
  let st' := (votePoll st "p-1" "opt-1" RemoteOk Sample.emptyTables).1 in
  Forall (λ n, notif_type n = success → notif_id n ≠ "poll-" +:+ "p-1")
         (notifications (H := Sample.host) st' Sample.now).
Proof.
  intros P st.
  apply (vote_dismisses_notification (H := Sample.host) st Sample.awa "p-1"
           "opt-1" Sample.emptyTables P Sample.now).
  - reflexivity.
  - reflexivity.
  - vm_compute. discriminate.
  - discriminate.
Defined.

(** X23. After such a vote the poll voted in is no longer the "active
    poll" of the dashboard; and the active poll, when there is one, always is
    a visible poll in which the current user has no recorded choice. *)
Theorem activePoll_after_vote st cu pollId optionId db P :
  currentUser st = Some cu →
  List.find (λ p, bool_decide (poll_id p = pollId)) (polls st) = Some P →
  poll_userVotes P !! user_id cu ≠ Some optionId →
  optionId ≠ "" →
  let st' := (votePoll st pollId optionId RemoteOk db).1 in
  match activePoll st' with
  | Some p =>
      p ∈ filteredPolls st' ∧ hasVoted cu p = false ∧ poll_id p ≠ pollId
  | None => True
  end.
Proof.
  intros Hcu Hfind Hne Hopt st'.
  destruct (activePoll st') as [p|] eqn:Hactive; [|done].
  destruct (votePoll_recorded st cu pollId optionId db P Hcu Hfind Hne)
    as [Hcu' Hrec]. fold st' in Hcu', Hrec.
  unfold activePoll in Hactive. rewrite Hcu' in Hactive.
  apply find_some_elem in Hactive as [Hp Hfalsy].
  split_and!; [done | by unfold hasVoted; rewrite Hfalsy |].
  intros Hid. apply accessFilter_subset in Hp.
  rewrite (Hrec p Hp Hid) in Hfalsy. simpl in Hfalsy.
  by apply bool_decide_eq_true in Hfalsy.
Qed.

Lemma activePoll_after_vote_witness :
  let P := Sample.pollAt "p-1" Sample.now ∅ in
  let Q := Sample.pollAt "p-2" Sample.now ∅ in
  let st := Sample.loggedIn (Some Sample.awa) [] [P; Q] in
  let st' := (votePoll st "p-1" "opt-1" RemoteOk Sample.emptyTables).1 in
  match activePoll st' with
  | Some p =>
      p ∈ filteredPolls st' ∧ hasVoted Sample.awa p = false
      ∧ poll_id p ≠ "p-1"
  | None => True
  end.
Proof.
  intros P Q st.
  apply (activePoll_after_vote st Sample.awa "p-1" "opt-1" Sample.emptyTables
           P).
  - reflexivity.
  - reflexivity.
  - vm_compute. discriminate.
  - discriminate.
Defined.

(** ** The polls form *)

Lemma delete_out_of_range {A} (l : list A) (i : nat) :
  (length l ≤ i)%nat → delete i l = l.
Proof.
  revert i. induction l as [|x l IH]; intros [|i] Hi; simpl in *;
    [done | done | lia |].
  f_equal. apply IH. lia.
Qed.

(** X24. The form never goes below two option fields: removing a field
    from a form with at least two fields leaves at least two, removes at most
    one, and removes exactly one when there are more than two fields and the
    index is one of them. *)
Theorem removeOptionField_keeps_two (options : list string) (index : nat) :
  (2 ≤ length options)%nat →
  (2 ≤ length (removeOptionField options index) ≤ length options)%nat
  ∧ ((2 < length options)%nat → (index < length options)%nat →
     length (removeOptionField options index) = (length options - 1)%nat).
Proof.
  intros Hlen. unfold removeOptionField. case_bool_decide as Hmore.
  - destruct (decide (index < length options)%nat) as [Hin|Hout].
    + rewrite length_delete by by apply lookup_lt_is_Some.
      split; [lia | done].
    + rewrite delete_out_of_range by lia. split; [lia | intros _ ?; lia].
  - split; [lia|]. intros Hmore'. done.
Qed.

Lemma removeOptionField_keeps_two_witness :
  (2 ≤ length (removeOptionField ["Oui"; "Non"] 0) ≤ 2)%nat
  ∧ ((2 < 2)%nat → (0 < 2)%nat →
     length (removeOptionField ["Oui"; "Non"] 0) = (2 - 1)%nat).
Proof. apply (removeOptionField_keeps_two ["Oui"; "Non"] 0). simpl. lia. Defined.

Lemma editOptions_lookup blank newOptionId existing options idx o' :
  editOptions blank newOptionId existing options !! idx = Some o' →
  ∃ text,
    filter (λ o, blank o = false) options !! idx = Some text
    ∧ o' = match existing !! idx with
           | Some existingOpt =>
               mkPollOption (opt_id existingOpt) text (opt_votes existingOpt)
           | None => mkPollOption (newOptionId idx) text 0
           end.
Proof.
  unfold editOptions. rewrite list_lookup_imap.
  destruct (filter _ options !! idx) as [text|]; simpl; [|done].
  intros [= <-]. by exists text.
Qed.

Lemma same_ids_votes (l l' : list PollOption) :
  Forall2 (λ o o', opt_id o' = opt_id o ∧ opt_votes o' = opt_votes o) l l' →
  opt_id <$> l' = opt_id <$> l ∧ opt_votes <$> l' = opt_votes <$> l.
Proof.
  induction 1 as [|o o' l l' [Hid Hv] _ [IHid IHv]]; [done|].
  rewrite !fmap_cons. by rewrite Hid, Hv, IHid, IHv.
Qed.

Lemma same_counts_tallied (m : gmap string string) (l l' : list PollOption) :
  Forall2 (λ o o', opt_id o' = opt_id o ∧ opt_votes o' = opt_votes o) l l' →
  Forall (λ o, opt_votes o = tally m (opt_id o)) l →
  Forall (λ o, opt_votes o = tally m (opt_id o)) l'.
Proof.
  induction 1 as [|o o' l l' [Hid Hv] _ IH]; [done|].
  intros Hl. apply Forall_cons in Hl as [Ho Hl].
  constructor; [by rewrite Hid, Hv | by apply IH].
Qed.

Lemma same_counts_consistent (p p' : Poll) :
  Forall2 (λ o o', opt_id o' = opt_id o ∧ opt_votes o' = opt_votes o)
          (poll_options p) (poll_options p') →
  poll_userVotes p' = poll_userVotes p →
  tallyConsistent p → tallyConsistent p'.
Proof.
  intros Hopts Hledger (Hnd & Hval & Hcount).
  destruct (same_ids_votes _ _ Hopts) as [Hids _].
  unfold tallyConsistent. rewrite Hids, Hledger. split_and!; [done | done |].
  by apply (same_counts_tallied _ (poll_options p)).
Qed.

(** X25. Editing a poll without changing the number of its options (every
    kept text non-blank, as many as there are options) changes texts only:
    the ids and the counts of the options and the ledger are kept, so a
    tally-consistent poll stays tally-consistent and its counts still add up
    to the size of its ledger. *)
Theorem editedPoll_same_count blank newOptionId existingPoll title options
    isAnonymous targetClass :
  tallyConsistent existingPoll →
  length (filter (λ o, blank o = false) options)
  = length (poll_options existingPoll) →
  let updated :=
    editedPoll blank newOptionId existingPoll title options isAnonymous
               targetClass in
  tallyConsistent updated
  ∧ balanced updated
  ∧ poll_userVotes updated = poll_userVotes existingPoll
  ∧ opt_id <$> poll_options updated = opt_id <$> poll_options existingPoll
  ∧ opt_votes <$> poll_options updated
    = opt_votes <$> poll_options existingPoll
  ∧ opt_text <$> poll_options updated = filter (λ o, blank o = false) options.
Proof.
  intros Hcons Hlen updated.
  assert (Forall2 (λ o o', opt_id o' = opt_id o ∧ opt_votes o' = opt_votes o)
            (poll_options existingPoll) (poll_options updated)) as Hopts.
  { apply Forall2_same_length_lookup_2.
    - simpl. unfold editOptions. by rewrite length_imap.
    - intros i o o' Ho Ho'. simpl in Ho'.
      apply editOptions_lookup in Ho' as (text & _ & ->).
      by rewrite Ho. }
  assert (tallyConsistent updated) as Hupdated
    by by apply (same_counts_consistent existingPoll).
  destruct (same_ids_votes _ _ Hopts) as [Hids Hvotes].
  split_and!; [done | by apply tallyConsistent_balanced | done | done | done |].
  - simpl. unfold editOptions. apply list_eq. intros i.
    rewrite list_lookup_fmap, list_lookup_imap.
    destruct (filter _ options !! i) as [text|]; simpl; [|done].
    by destruct (poll_options existingPoll !! i).
Qed.

Lemma editedPoll_same_count_witness :
  let existingPoll :=
    Sample.pollWith "p-1" Sample.now 1 0 {["u-awa" := "opt-0"]} in
  let updated :=
    editedPoll (λ o, bool_decide (o = "")) (λ _, "opt-new") existingPoll
               "Sortie de fin d'annee" ["Pour"; ""; "Contre"] false "" in
  tallyConsistent updated
  ∧ balanced updated
  ∧ poll_userVotes updated = poll_userVotes existingPoll
  ∧ opt_id <$> poll_options updated = opt_id <$> poll_options existingPoll
  ∧ opt_votes <$> poll_options updated
    = opt_votes <$> poll_options existingPoll
  ∧ opt_text <$> poll_options updated
    = filter (λ o, bool_decide (o = "") = false) ["Pour"; ""; "Contre"].
Proof.
  intros existingPoll.
  apply (editedPoll_same_count (λ o, bool_decide (o = "")) (λ _, "opt-new")
           existingPoll).
  - split_and!.
    + apply (bool_decide_unpack _). vm_compute. exact I.
    + intros u o Hu. unfold existingPoll in Hu. simpl in Hu.
      apply lookup_singleton_Some in Hu as [_ <-].
      apply (bool_decide_unpack _). vm_compute. exact I.
    + repeat constructor.
  - reflexivity.
Defined.

(** X26. The options submitted for a new poll carry no votes, keep the
    non-blank texts in their order and, when the id template gives different
    ids at different positions, have pairwise distinct ids: they are options
    [addPoll] can take without breaking tally-consistency. *)
Theorem createOptions_fresh blank (newOptionId : nat → string) options :
  (∀ i j, newOptionId i = newOptionId j → i = j) →
  freshOptions (createOptions blank newOptionId options)
  ∧ opt_text <$> createOptions blank newOptionId options
    = filter (λ o, blank o = false) options.
Proof.
  intros Hinj. unfold createOptions, freshOptions.
  set (texts := filter (λ o, blank o = false) options).
  split_and!.
  - rewrite fmap_imap.
    rewrite (imap_ext _ (λ j _, newOptionId j)) by done.
    rewrite imap_seq_0.
    apply NoDup_fmap_2_strong; [|apply NoDup_seq].
    intros i j _ _. apply Hinj.
  - apply Forall_lookup. intros i o Ho.
    rewrite list_lookup_imap in Ho.
    destruct (texts !! i); simpl in Ho; [|done]. by injection Ho as <-.
  - apply list_eq. intros i. rewrite list_lookup_fmap, list_lookup_imap.
    by destruct (texts !! i).
Qed.

Lemma createOptions_fresh_witness :
  let newOptionId := λ idx : nat, "opt-1700000000000-" +:+ pretty idx in
  freshOptions
    (createOptions (λ o, bool_decide (o = "")) newOptionId ["Oui"; ""; "Non"])
  ∧ opt_text <$> createOptions (λ o, bool_decide (o = "")) newOptionId
                               ["Oui"; ""; "Non"]
    = filter (λ o, bool_decide (o = "") = false) ["Oui"; ""; "Non"].
Proof.
  intros newOptionId.
  apply (createOptions_fresh (λ o, bool_decide (o = "")) newOptionId).
  intros i j Heq. subst newOptionId. simpl in Heq.
  apply (inj (String.app "opt-1700000000000-")) in Heq.
  by apply (inj pretty) in Heq.
Defined.

(** ** Sessions across a page reload

    A page reload starts from the state of the first render; only the
    [classpoll_session] entry of [localStorage] is kept. *)

Lemma fetchData_without_session st db :
  session st = None →
  currentUser (fetchData st db).1 = currentUser st
  ∧ session (fetchData st db).1 = None.
Proof.
  intros Hs. unfold fetchData.
  destruct (users_table db) as [|userData]; simpl; [done|].
  destruct (match userData with [] => _ | _ => _ end) as [mappedUsers c1].
  assert (restoreSession mappedUsers
            (setUsers mappedUsers (setDbError None st))
          = setUsers mappedUsers (setDbError None st)) as ->.
  { unfold restoreSession. simpl. by rewrite Hs. }
  destruct (announcements_table db); simpl; [done|].
  destruct (exams_table db); simpl; [done|].
  destruct (polls_table db); simpl; [done|].
  by destruct (resources_table db).
Qed.

(** X27. A login survives a page reload as long as the account exists:
    after a successful login, reloading the page and fetching the data makes
    the first fetched user with the id of the logged-in user the current
    user; if no fetched user has that id, nobody is logged in and the stored
    session is removed. *)
Theorem login_survives_reload `{Host} st email password db us u :
  (handleLogin st email password).1 = true →
  currentUser (handleLogin st email password).2 = Some u →
  users_table db = FetchRows us →
  let reloaded :=
    (fetchData
       (setSession (session (handleLogin st email password).2) initialState)
       db).1 in
  match List.find (λ v, bool_decide (user_id v = user_id u)) (users reloaded)
  with
  | Some validUser => currentUser reloaded = Some validUser
  | None => currentUser reloaded = None ∧ session reloaded = None
  end.
Proof.
  intros Hok Hcur Hus reloaded.
  assert (session (handleLogin st email password).2 = Some u) as Hsess.
  { unfold handleLogin in *.
    destruct (List.find _ (users st)); simpl in *; [congruence | done]. }
  subst reloaded. rewrite Hsess.
  destruct (fetchData_session (setSession (Some u) initialState) db
              (users (fetchData (setSession (Some u) initialState) db).1)
              eq_refl) as [Hs Hc]; [by exists us|].
  rewrite Hs, Hc. unfold restoreSession. simpl.
  by destruct (List.find _ (users _)).
Qed.

Lemma login_survives_reload_witness :
  let st := Sample.loggedIn None [] [] in
  let reloaded :=
    (fetchData
       (setSession
          (session (handleLogin (H := Sample.host) st "awa@eco.com"
                      "secret").2) initialState)
       Sample.emptyTables).1 in
  match List.find (λ v, bool_decide (user_id v = user_id Sample.awa))
                  (users reloaded)
  with
  | Some validUser => currentUser reloaded = Some validUser
  | None => currentUser reloaded = None ∧ session reloaded = None
  end.
Proof.
  intros st.
  apply (login_survives_reload (H := Sample.host) st "awa@eco.com" "secret"
           Sample.emptyTables [Sample.awa; Sample.binta; Sample.admin]
           Sample.awa); vm_compute; reflexivity.
Defined.

(** X28. A logout is durable: after [handleLogout], a page reload followed
    by [fetchData] leaves nobody logged in, whatever the store answers. *)
Theorem logout_survives_reload st db :
  let reloaded :=
    (fetchData (setSession (session (handleLogout st)) initialState) db).1 in
  currentUser reloaded = None ∧ session reloaded = None.
Proof.
  simpl. by apply (fetchData_without_session (setSession None initialState)).
Qed.

(** ** A vote that the store refuses *)

Lemma fetchData_polls_cases st db :
  polls (fetchData st db).1
  = match users_table db, announcements_table db, exams_table db,
          polls_table db with
    | FetchRows _, FetchRows _, FetchRows _, FetchRows pollData =>
        loadPoll <$> pollData
    | _, _, _, _ => polls st
    end.
Proof.
  unfold fetchData.
  destruct (users_table db) as [|userData]; simpl; [done|].
  destruct (match userData with [] => _ | _ => _ end) as [mappedUsers c1].
  pose proof (restoreSession_polls mappedUsers
                (setUsers mappedUsers (setDbError None st))) as Hpolls.
  simpl in Hpolls.
  destruct (announcements_table db); simpl; [done|].
  destruct (exams_table db); simpl; [done|].
  destruct (polls_table db); simpl; [done|].
  by destruct (resources_table db).
Qed.

(** X29. When the store refuses a vote, the cache is rolled back only
    through the refetch: if the selects of users, announcements, exams and
    polls all succeed the polls are the stored ones, and otherwise the cache
    keeps the optimistic vote (the ledger entry and the counts of the vote
    that failed). *)
Theorem failed_vote_rollback st cu pollId optionId message db P :
  currentUser st = Some cu →
  List.find (λ p, bool_decide (poll_id p = pollId)) (polls st) = Some P →
  poll_userVotes P !! user_id cu ≠ Some optionId →
  polls (votePoll st pollId optionId (RemoteError message) db).1
  = match users_table db, announcements_table db, exams_table db,
          polls_table db with
    | FetchRows _, FetchRows _, FetchRows _, FetchRows pollData =>
        loadPoll <$> pollData
    | _, _, _, _ => polls (votePoll st pollId optionId RemoteOk db).1
    end.
Proof.
  intros Hcu Hfind Hne. unfold votePoll.
  rewrite Hcu, Hfind, bool_decide_eq_false_2 by done.
  match goal with
  | |- context [fetchData ?s db] =>
      pose proof (fetchData_polls_cases s db) as Hcases;
      destruct (fetchData s db) as [st2 calls]
  end.
  exact Hcases.
Qed.

Lemma failed_vote_rollback_witness :
  let P := Sample.pollAt "p-1" Sample.now ∅ in
  let st := Sample.loggedIn (Some Sample.awa) [] [P] in
  let offline := mkTables FetchError (RemoteError "offline") FetchError
                          FetchError FetchError None in
  polls (votePoll st "p-1" "opt-1" (RemoteError "offline") offline).1
  = polls (votePoll st "p-1" "opt-1" RemoteOk offline).1.
Proof.
  intros P st offline.
  apply (failed_vote_rollback st Sample.awa "p-1" "opt-1" "offline" offline P).
  - reflexivity.
  - reflexivity.
  - vm_compute. discriminate.
Defined.

(** ** A new poll in the feed *)

(** X30. A poll created by an Admin or a Responsable is announced to its
    creator: from its creation until 49 hours later (excluded), as long as
    the state is not changed, the feed of the creator holds the success item
    of the new poll. *)
Theorem new_poll_is_announced `{Host} st cu data newId now later :
  currentUser st = Some cu →
  unrestricted cu = true →
  now ≤ later < now + 49 * MS_PER_HOUR →
  let st' := (addPoll st data newId now RemoteOk).1 in
  ∃ newPoll,
    head (polls st') = Some newPoll
    ∧ poll_id newPoll = newId
    ∧ pollSuccess newPoll ∈ notifications st' later.
Proof.
  intros Hcu Hrole Hlater st'. subst st'. unfold addPoll. rewrite Hcu. simpl.
  eexists. split_and!; [done | done |].
  match goal with
  | |- _ ∈ notifications ?s _ =>
      rewrite (notifications_perm s cu later Hcu)
  end.
  rewrite !elem_of_app. right. right.
  apply list_elem_of_fmap_2, list_elem_of_filter. split.
  - apply pollAwaitsVote_iff. simpl.
    split; [unfold MS_PER_HOUR in *; lia | by left].
  - unfold filteredPolls, accessFilter. simpl. rewrite Hcu, Hrole. left.
Qed.

Lemma new_poll_is_announced_witness :
  let st := Sample.loggedIn (Some Sample.admin) [] [] in
  let st' := (addPoll st (Sample.pollAt "" 0 ∅) "p-1" Sample.now RemoteOk).1 in
  ∃ newPoll,
    head (polls st') = Some newPoll
    ∧ poll_id newPoll = "p-1"
    ∧ pollSuccess newPoll
      ∈ notifications (H := Sample.host) st' (Sample.now + MS_PER_DAY).
Proof.
  intros st.
  apply (new_poll_is_announced (H := Sample.host) st Sample.admin
           (Sample.pollAt "" 0 ∅) "p-1" Sample.now (Sample.now + MS_PER_DAY)).
  - reflexivity.
  - reflexivity.
  - unfold Sample.now, MS_PER_DAY, MS_PER_HOUR. lia.
Defined.
